(** * Bulls and Cows: a shallow embedding of [game_functions.py] and [main.py]

    The Python functions are translated into Rocq definitions:
    - list objects live in a store indexed by references, so that the in-place
      marking done by [evaluate_guess] and the aliasing of its two arguments
      are visible;
    - exceptions are an explicit outcome; a raised exception keeps the store
      as it was when the exception was raised;
    - Python [int] is [Z], Python [str] is [string], a [list[str]] is a
      [list string], a [float] is an IEEE 754 binary64 number;
    - the score file, the permission to write it and the console are the
      state of [highscore]; the builtins [int] and [str.strip] are
      parameters of it. *)

From Stdlib Require Import ZArith String Ascii List Lia DecimalString SpecFloat.
From stdpp Require Import gmultiset.
From stdpp Require Import base tactics option list strings sorting.
From Stdlib Require DecimalPos DecimalZ.

Open Scope string_scope.
Open Scope list_scope.
Open Scope Z_scope.

(** * Part I: the program *)

(** ** Python exceptions and outcomes *)

Inductive exn : Type :=
  | IndexError
  | ValueError
  | FileNotFoundError
  | PermissionError (msg : string)
  | RuntimeError (msg : string)
  | OverflowError.

(** [isinstance(e, OSError)]: the two file errors are subclasses of it. *)
Definition is_OSError (e : exn) : bool :=
  match e with
  | FileNotFoundError | PermissionError _ => true
  | _ => false
  end.

(** [str(e)] for the exceptions that carry a message. *)
Definition exn_message (e : exn) : string :=
  match e with
  | PermissionError msg | RuntimeError msg => msg
  | _ => ""
  end.

Inductive outcome (A : Type) : Type :=
  | Returns (a : A)
  | Raises (e : exn).

Arguments Returns {A} a.
Arguments Raises {A} e.

#[global] Instance outcome_ret : MRet outcome := fun A a => Returns a.

#[global] Instance outcome_bind : MBind outcome := fun A B f o =>
  match o with
  | Returns a => f a
  | Raises e => Raises e
  end.

(** ** The store of list objects *)

(** A reference to a Python list object. *)
Definition loc := nat.

(** The store maps every reference to the current contents of its list. *)
Definition heap := loc -> list string.

Definition heap_update (h : heap) (r : loc) (l : list string) : heap :=
  fun r' => if Nat.eqb r' r then l else h r'.

(** ** Computations with a state that may raise

    [eff St A]: from a state, either a value or an exception, and the state
    reached; an exception keeps the writes made before it. *)
Definition eff (St A : Type) : Type := St -> outcome A * St.

#[global] Instance eff_ret {St : Type} : MRet (eff St) :=
  fun A a s => (Returns a, s).

#[global] Instance eff_bind {St : Type} : MBind (eff St) := fun A B f m s =>
  match m s with
  | (Returns a, s') => f a s'
  | (Raises e, s') => (Raises e, s')
  end.

Definition raise {St A : Type} (e : exn) : eff St A := fun s => (Raises e, s).

(** A value or an exception computed without touching the state. *)
Definition lift_outcome {St A : Type} (o : outcome A) : eff St A :=
  fun s => (o, s).

(** [try: body  except <classes> as e: handler(e)]. *)
Definition try_except {St A : Type} (body : eff St A) (catches : exn -> bool)
    (handler : exn -> eff St A) : eff St A := fun s =>
  match body s with
  | (Returns a, s') => (Returns a, s')
  | (Raises e, s') => if catches e then handler e s' else (Raises e, s')
  end.

(** The one-character string ["\n"]. *)
Definition newline : string := String "010"%char EmptyString.

(** [str(n)] of an [int]. *)
Definition str_of_int (n : Z) : string := NilZero.string_of_int (Z.to_int n).

(** [for x in xs: s = body(x, s)], the loop state [s] holding the local
    variables the body assigns. *)
Fixpoint for_each {St A L : Type} (xs : list A) (body : A -> L -> eff St L)
    (s : L) : eff St L :=
  match xs with
  | [] => mret s
  | x :: xs' => s' ← body x s; for_each xs' body s'
  end.

(** [range(n)]. *)
Definition range (n : nat) : list nat := seq 0 n.

(** Computations on the store of list objects. *)
Abbreviation M := (eff heap).

(** [l.copy()] and reading the whole of a list object. *)
Definition list_copy (r : loc) : M (list string) := fun h => (Returns (h r), h).

(** [r[i]] on a list object; [i] is never negative here. *)
Definition heap_getitem (r : loc) (i : nat) : M string := fun h =>
  match h r !! i with
  | Some x => (Returns x, h)
  | None => (Raises IndexError, h)
  end.

(** [r[i] = v] on a list object. *)
Definition heap_setitem (r : loc) (i : nat) (v : string) : M unit := fun h =>
  if bool_decide (i < length (h r))%nat
  then (Returns tt, heap_update h r (<[i:=v]> (h r)))
  else (Raises IndexError, h).

(** [l[i]] and [l[i] = v] on a list held in a local variable that no other
    name refers to. *)
Definition getitem (l : list string) (i : nat) : M string :=
  match l !! i with
  | Some x => mret x
  | None => raise IndexError
  end.

Definition setitem (l : list string) (i : nat) (v : string) : M (list string) :=
  if bool_decide (i < length l)%nat then mret (<[i:=v]> l) else raise IndexError.

(** [l.index(x)]: the first position holding [x], [ValueError] if none. *)
Fixpoint index_from (l : list string) (x : string) (i : nat) : option nat :=
  match l with
  | [] => None
  | y :: l' => if bool_decide (y = x) then Some i else index_from l' x (S i)
  end.

Definition list_index (l : list string) (x : string) : M nat :=
  match index_from l x 0 with
  | Some i => mret i
  | None => raise ValueError
  end.

(** [x in l]. *)
Definition contains (x : string) (l : list string) : bool :=
  bool_decide (x ∈ l).

(** ** Python [float]: IEEE 754 binary64

    A [float] is a [spec_float] of precision 53 and maximal exponent 1024;
    sums, differences and quotients are those of the Standard Library, rounded
    to nearest even. The operations below are the ones CPython applies to a
    [float]: [fmod] and [floor] of the C library, [//] and [%]
    ([float_floor_div] and [float_rem] of floatobject.c), [round] and [int]. *)

Definition prec : Z := 53.
Definition emax : Z := 1024.

Abbreviation float := spec_float.

Definition float_add : float -> float -> float := SFadd prec emax.
Definition float_sub : float -> float -> float := SFsub prec emax.
Definition float_div : float -> float -> float := SFdiv prec emax.

(** [float(n)] of an [int]; exact when [|n| < 2^53]. *)
Definition float_of_int (n : Z) : float := binary_normalize prec emax n 0 false.

(** The float of value [m * 2^e], for a value that is representable. *)
Definition float_exact (m e : Z) (negative_zero : bool) : float :=
  binary_normalize prec emax m e negative_zero.

Definition float_sign (x : float) : bool :=
  match x with
  | S754_zero s | S754_infinity s | S754_finite s _ _ => s
  | S754_nan => false
  end.

(** [x != 0.0], which is how C reads [if (x)]. *)
Definition float_nonzero (x : float) : bool :=
  match x with
  | S754_zero _ => false
  | _ => true
  end.

(** [x < 0.0]. *)
Definition float_negative (x : float) : bool :=
  match x with
  | S754_infinity true | S754_finite true _ _ => true
  | _ => false
  end.

(** [fmod(x, y)] of the C library: the remainder of [x / y] truncated towards
    zero, computed exactly, with the sign of [x]. *)
Definition fmod (x y : float) : float :=
  match x, y with
  | S754_nan, _ | _, S754_nan => S754_nan
  | S754_infinity _, _ | _, S754_zero _ => S754_nan
  | S754_zero _, _ => x
  | S754_finite _ _ _, S754_infinity _ => x
  | S754_finite sx mx ex, S754_finite _ my ey =>
      let e := Z.min ex ey in
      let r := (Z.pos mx * 2 ^ (ex - e)) mod (Z.pos my * 2 ^ (ey - e)) in
      float_exact (cond_Zopp sx r) e sx
  end.

(** [floor(x)] of the C library. *)
Definition floor (x : float) : float :=
  match x with
  | S754_finite s m e =>
      if 0 <=? e then x
      else float_exact (cond_Zopp s (Z.pos m) / 2 ^ (- e)) 0 s
  | _ => x
  end.

(** [copysign(0.0, x)]. *)
Definition zero_with_sign_of (x : float) : float := S754_zero (float_sign x).

(** [x // y] for [y != 0.0]: the quotient of [_float_div_mod]. *)
Definition float_floor_div (vx wx : float) : float :=
  let mod_ := fmod vx wx in
  let div := float_div (float_sub vx mod_) wx in
  let div :=
    if float_nonzero mod_
       && negb (Bool.eqb (float_negative wx) (float_negative mod_))
    then float_sub div (float_of_int 1)
    else div in
  if float_nonzero div then
    let floordiv := floor div in
    if SFltb (float_exact 1 (-1) false) (float_sub div floordiv)
    then float_add floordiv (float_of_int 1)
    else floordiv
  else zero_with_sign_of (float_div vx wx).

(** [x % y] for [y != 0.0]: [float_rem]. *)
Definition float_rem (vx wx : float) : float :=
  let mod_ := fmod vx wx in
  if float_nonzero mod_ then
    if negb (Bool.eqb (float_negative wx) (float_negative mod_))
    then float_add mod_ wx
    else mod_
  else zero_with_sign_of wx.

(** [int(x)] of a float: truncation towards zero. *)
Definition int_of_float (x : float) : outcome Z :=
  match x with
  | S754_nan => Raises ValueError
  | S754_infinity _ => Raises OverflowError
  | S754_zero _ => Returns 0
  | S754_finite s m e =>
      Returns (if 0 <=? e then cond_Zopp s (Z.pos m) * 2 ^ e
               else Z.quot (cond_Zopp s (Z.pos m)) (2 ^ (- e)))
  end.

(** [round(x)] of a float: the nearest [int], a tie going to the even one. *)
Definition round (x : float) : outcome Z :=
  match x with
  | S754_nan => Raises ValueError
  | S754_infinity _ => Raises OverflowError
  | S754_zero _ => Returns 0
  | S754_finite s m e =>
      if 0 <=? e then Returns (cond_Zopp s (Z.pos m) * 2 ^ e)
      else
        let d := 2 ^ (- e) in
        let q := cond_Zopp s (Z.pos m) / d in
        let r := cond_Zopp s (Z.pos m) mod d in
        Returns (match 2 * r ?= d with
                 | Lt => q
                 | Gt => q + 1
                 | Eq => if Z.even q then q else q + 1
                 end)
  end.

(** ** game_functions.py: the guess evaluator *)

Definition NUMBER_LENGTH : nat := 4.

(** Body of the first loop of [evaluate_guess]: the bulls. *)
Definition bulls_body (user_number : loc) (position : nat)
    (s : Z * list string) : M (Z * list string) :=
  let '(bulls, generated_number_copy) := s in
  g ← getitem generated_number_copy position;
  u ← heap_getitem user_number position;
  if bool_decide (g = u) then
    generated_number_copy' ← setitem generated_number_copy position "";
    _ ← heap_setitem user_number position "";
    mret (bulls + 1, generated_number_copy')
  else mret (bulls, generated_number_copy).

(** Body of the second loop of [evaluate_guess]: the cows. *)
Definition cows_body (user_number : loc) (position : nat)
    (s : Z * list string) : M (Z * list string) :=
  let '(cows, generated_number_copy) := s in
  u ← heap_getitem user_number position;
  if bool_decide (u ≠ "") && contains u generated_number_copy then
    u' ← heap_getitem user_number position;
    i ← list_index generated_number_copy u';
    generated_number_copy' ← setitem generated_number_copy i "";
    mret (cows + 1, generated_number_copy')
  else mret (cows, generated_number_copy).

Definition evaluate_guess (generated_number user_number : loc) : M (Z * Z) :=
  let bulls := 0 in
  let cows := 0 in
  generated_number_copy ← list_copy generated_number;
  '(bulls, generated_number_copy) ←
    for_each (range NUMBER_LENGTH) (bulls_body user_number)
             (bulls, generated_number_copy);
  '(cows, _) ←
    for_each (range NUMBER_LENGTH) (cows_body user_number)
             (cows, generated_number_copy);
  mret (bulls, cows).

(** ** game_functions.py: the timer *)

Definition calculate_time (start_time end_time : float) : outcome (Z * Z * Z) :=
  let time_elapsed := float_sub end_time start_time in
  let minutes := float_floor_div time_elapsed (float_of_int 60) in
  let seconds := float_rem time_elapsed (float_of_int 60) in
  m ← int_of_float minutes;
  s ← round seconds;
  total ← round time_elapsed;
  mret (m, s, total).

(** ** game_functions.py: the score file *)

(** What [HIGHSCORE_FILE.open('r')] and iterating over the file give. *)
Inductive file_state : Type :=
  | Missing                     (* no such file: [FileNotFoundError] *)
  | Unreadable (msg : string)   (* the file cannot be opened: [PermissionError] *)
  | Undecodable                 (* not UTF-8: [UnicodeDecodeError], a [ValueError] *)
  | Lines (ls : list string).   (* the lines of the file, newline included *)

(** The part of the outside world [highscore] touches. [write_error] is
    [Some msg] when [HIGHSCORE_FILE.open('w')] raises an [OSError] whose text
    is [msg]; [stdout] is what has been printed so far. *)
Record world : Type := {
  score_file : file_state;
  write_error : option string;
  stdout : list string
}.

(** [HIGHSCORE_FILE.open('r')] and the reading of the lines. Of the
    [OSError]s that [open] can raise besides [FileNotFoundError], the model
    has [PermissionError] only. *)
Definition open_read : eff world (list string) := fun w =>
  match score_file w with
  | Missing => (Raises FileNotFoundError, w)
  | Unreadable msg => (Raises (PermissionError msg), w)
  | Undecodable => (Raises ValueError, w)
  | Lines ls => (Returns ls, w)
  end.

(** [with HIGHSCORE_FILE.open('w') as file: for s in scores: file.write(f'{s}\n')] *)
Definition write_scores (scores : list Z) : eff world unit := fun w =>
  match write_error w with
  | Some msg => (Raises (PermissionError msg), w)
  | None =>
      (Returns tt,
       {| score_file := Lines (map (fun s => str_of_int s ++ newline)%string scores);
          write_error := None;
          stdout := stdout w |})
  end.

Definition print (line : string) : eff world unit := fun w =>
  (Returns tt,
   {| score_file := score_file w;
      write_error := write_error w;
      stdout := stdout w ++ [line] |}).

(** [sorted(scores)]. *)
Definition sorted (scores : list Z) : list Z := merge_sort Z.le scores.

Section Highscore.

(** The builtins [int(s)] on a [str] ([None] for [ValueError]) and
    [s.strip()]. *)
Variable int_of_str : string -> option Z.
Variable strip : string -> string.

(** [[int(line.strip()) for line in file if line.strip()]] *)
Fixpoint read_scores (lines : list string) : outcome (list Z) :=
  match lines with
  | [] => Returns []
  | line :: lines' =>
      if bool_decide (strip line <> "") then
        match int_of_str (strip line) with
        | Some n =>
            match read_scores lines' with
            | Returns scores => Returns (n :: scores)
            | Raises e => Raises e
            end
        | None => Raises ValueError
        end
      else read_scores lines'
  end.

Definition load_scores : eff world (list Z) :=
  lines ← open_read;
  lift_outcome (read_scores lines).

(** [HIGHSCORE_FILE] is ['highscore.txt'], whose parent is the current
    directory, so the [mkdir(parents=True, exist_ok=True)] on the first line
    of the function creates nothing. *)
Definition highscore (score : Z) : eff world (list Z) :=
  scores ← try_except load_scores
              (fun e => match e with
                        | FileNotFoundError | ValueError => true
                        | _ => false
                        end)
              (fun _ => mret []);
  let scores := scores ++ [score] in
  let scores := take 10 (sorted scores) in
  _ ← try_except (write_scores scores) is_OSError
        (fun e => print ("Warning: Could not save highscore: " ++ exn_message e)%string);
  mret scores.

(** A line the list comprehension cannot convert. *)
Definition corrupt_line (line : string) : Prop :=
  strip line <> "" /\ int_of_str (strip line) = None.

(** The scores [highscore] starts from, [None] when reading propagates an
    exception. *)
Definition prior_scores (st : file_state) : option (list Z) :=
  match st with
  | Missing | Undecodable => Some []
  | Unreadable _ => None
  | Lines ls =>
      match read_scores ls with
      | Returns old => Some old
      | Raises _ => Some []
      end
  end.

End Highscore.

(** ** main.py *)

(** The fields of [sys.version_info] the program reads. *)
Record version_info : Type := { major : Z; minor : Z }.

(** [a < b] on tuples of [int]: lexicographic, a proper prefix is smaller. *)
Fixpoint tuple_lt (a b : list Z) : bool :=
  match a, b with
  | [], [] => false
  | [], _ :: _ => true
  | _ :: _, [] => false
  | x :: a', y :: b' => if x =? y then tuple_lt a' b' else x <? y
  end.

(** [t[i]] on a tuple. *)
Definition tuple_getitem {St : Type} (t : list Z) (i : nat) : eff St Z :=
  match t !! i with
  | Some x => mret x
  | None => raise IndexError
  end.

(** [current] is [sys.version_info]; [current[:2]] is its (major, minor). *)
Definition check_python_version {St : Type} (current : version_info)
    (required : list Z) : eff St unit :=
  if tuple_lt [major current; minor current] required then
    required_0 ← tuple_getitem required 0;
    required_1 ← tuple_getitem required 1;
    raise (RuntimeError
             ("Requires Python " ++ str_of_int required_0 ++ "."
              ++ str_of_int required_1 ++ "+, but found "
              ++ str_of_int (major current) ++ "."
              ++ str_of_int (minor current))%string)
  else mret tt.

(** The script body: [check_python_version((3,10))], then [play_game()].
    The game loop is any computation on the program's state. *)
Definition main {St : Type} (current : version_info) (play_game : eff St unit)
    : eff St unit :=
  _ ← check_python_version current [3; 10];
  play_game.

(** ** The reference algorithm of the specification (section 4.1)

    Written from the specification's words: digits are never overwritten, a
    consumed position is recorded by a flag next to it. *)

Module Reference.

(** Pass 1: position [i] is a bull when [secret[i] == guess[i]]; the flag
    marks position [i] consumed in both sequences. *)
Definition matches (secret guess : list string) : list bool :=
  zip_with (fun s g => bool_decide (s = g)) secret guess.

Definition count_bulls (marks : list bool) : Z :=
  Z.of_nat (length (filter (fun b => b = true) marks)).

(** The first position, in scan order, of an unconsumed secret digit equal
    to [d]. *)
Fixpoint first_match (secret : list string) (consumed : list bool)
    (d : string) : option nat :=
  match secret, consumed with
  | s :: secret', c :: consumed' =>
      if negb c && bool_decide (s = d) then Some 0%nat
      else S <$> first_match secret' consumed' d
  | _, _ => None
  end.

(** Pass 2: scan the guess in order; an unconsumed guess digit that still
    occurs among the unconsumed secret digits is a cow and consumes the
    first such secret position. *)
Fixpoint count_cows (secret : list string) (guess : list (string * bool))
    (consumed : list bool) : Z :=
  match guess with
  | [] => 0
  | (d, used) :: guess' =>
      if used then count_cows secret guess' consumed
      else match first_match secret consumed d with
           | Some j => 1 + count_cows secret guess' (<[j:=true]> consumed)
           | None => count_cows secret guess' consumed
           end
  end.

Definition evaluate (secret guess : list string) : Z * Z :=
  let marks := matches secret guess in
  (count_bulls marks, count_cows secret (zip guess marks) marks).

End Reference.

(** ** Definitions used in the statements and proofs *)

(** A store holding a secret at reference 0 and a guess at reference 1. *)
Definition two_lists (secret guess : list string) : heap :=
  fun r => match r with
           | O => secret
           | S O => guess
           | _ => []
           end.

(** [list("1234")]: a string as the list of its one-character strings. *)
Fixpoint chars (s : string) : list string :=
  match s with
  | EmptyString => []
  | String c s' => String c EmptyString :: chars s'
  end.

(** A digit character, as [str.isdigit] accepts on the validated input and as
    [str(randint(..))] produces. *)
Definition is_digit (s : string) : Prop :=
  s ∈ ["0"; "1"; "2"; "3"; "4"; "5"; "6"; "7"; "8"; "9"].

(** *** What the two loops of [evaluate_guess] compute *)

(** The first loop run over positions [0 .. n-1] of the copy [g] and of the
    guess [u]: the number of bulls and both lists after marking; [None] when
    a list is shorter than [n]. *)
Fixpoint bulls_pass (n : nat) (g u : list string)
    : option (Z * list string * list string) :=
  match n with
  | O => Some (0, g, u)
  | S n' =>
      match g, u with
      | a :: g', b :: u' =>
          match bulls_pass n' g' u' with
          | Some (k, g1, u1) =>
              if bool_decide (a = b) then Some (k + 1, "" :: g1, "" :: u1)
              else Some (k, a :: g1, b :: u1)
          | None => None
          end
      | _, _ => None
      end
  end.

(** [g[g.index(x)] = ''] when [x in g]. *)
Definition mark_first (x : string) (g : list string) : list string :=
  match index_from g x 0 with
  | Some i => <[i:=""]> g
  | None => g
  end.

(** The second loop run over the guess digits [us] in order. *)
Fixpoint cows_pass (us : list string) (g : list string) : Z :=
  match us with
  | [] => 0
  | u :: us' =>
      if bool_decide (u ≠ "") && contains u g
      then 1 + cows_pass us' (mark_first u g)
      else cows_pass us' g
  end.

(** A list of digits in which the flagged positions hold the marker [""]. *)
Definition mask (l : list string) (flags : list bool) : list string :=
  zip_with (fun s (c : bool) => if c then "" else s) l flags.

(** The number of entries that are not the marker. *)
Definition live (us : list string) : Z :=
  Z.of_nat (length (filter (fun u => u <> "") us)).

(** *** The builtins on plain ASCII numerals, to run [highscore] on concrete
    files *)

(** [c.isspace()] for an ASCII character. *)
Definition is_space (c : ascii) : bool :=
  let n := nat_of_ascii c in
  ((9 <=? n) && (n <=? 13) || (28 <=? n) && (n <=? 32))%nat.

Fixpoint lstrip (s : string) : string :=
  match s with
  | String c s' => if is_space c then lstrip s' else s
  | EmptyString => EmptyString
  end.

Fixpoint rstrip (s : string) : string :=
  match s with
  | String c s' =>
      match rstrip s' with
      | EmptyString => if is_space c then EmptyString else String c EmptyString
      | t => String c t
      end
  | EmptyString => EmptyString
  end.

Definition ascii_strip (s : string) : string := rstrip (lstrip s).

(** [int(s)] for a stripped ASCII string: an optional sign, then decimal
    digits. *)
Definition ascii_int (s : string) : option Z :=
  match s with
  | String "+" s' =>
      match s' with
      | String "-" _ | String "+" _ => None
      | _ => Z.of_int <$> NilZero.int_of_string s'
      end
  | _ => Z.of_int <$> NilZero.int_of_string s
  end.

(** The world after [highscore] has computed [result]: the file rewritten,
    or, when it cannot be opened for writing, a warning printed. *)
Definition after_highscore (result : list Z) (w : world) : world :=
  match write_error w with
  | None =>
      {| score_file := Lines (map (fun s => str_of_int s ++ newline)%string result);
         write_error := None;
         stdout := stdout w |}
  | Some msg =>
      {| score_file := score_file w;
         write_error := write_error w;
         stdout := stdout w ++ ["Warning: Could not save highscore: " ++ msg]%string |}
  end.

(** A score file with eleven entries, out of order. *)
Definition eleven_scores : world :=
  {| score_file :=
       Lines (map (fun s => str_of_int s ++ newline)%string
                  [40; 12; 7; 95; 33; 61; 8; 120; 54; 19; 76]);
     write_error := None;
     stdout := [] |}.

(** A score file whose second line is not a number. *)
Definition corrupt_scores : world :=
  {| score_file := Lines ["5" ++ newline; "x9" ++ newline; "20" ++ newline]%string;
     write_error := None;
     stdout := [] |}.

(** (major, minor) strictly below (required_major, required_minor). *)
Definition version_below (current : version_info) (rmajor rminor : Z) : Prop :=
  major current < rmajor \/ (major current = rmajor /\ minor current < rminor).

(** The float literals [0.0], [119.6] and [59.5]. *)
Definition float_0 : float := S754_zero false.

(** The float literal [0.5000000000000001], the float next above one half:
    [(2^52 + 1) * 2^-53]. *)
Definition float_0_5000000000000001 : float :=
  float_exact (2 ^ 52 + 1) (-53) false.
Definition float_119_6 : float := float_div (float_of_int 1196) (float_of_int 10).
Definition float_59_5 : float := float_exact 119 (-1) false.

(** The float [n / 10]: an elapsed time of [n] tenths of a second. *)
Definition tenths (n : Z) : float := float_div (float_of_int n) (float_of_int 10).

(** On an elapsed time of [n] tenths: minutes and seconds add up to the
    total, and the seconds component is 60 exactly in the last half second
    of a minute. *)
Definition tenths_add_up (n : Z) : bool :=
  match calculate_time float_0 (tenths n) with
  | Returns (m, s, total) =>
      (m * 60 + s =? total) && Bool.eqb (s =? 60) (595 <=? n mod 600)
  | Raises _ => false
  end.

(** * Part I, continued: definitions for the further properties *)

(** ** The guess evaluator: what it writes and what it counts *)

(** [m] writes no list object other than [u]. *)
Definition writes_only {A : Type} (u : loc) (m : M A) : Prop :=
  forall (h : heap) (r : loc), r <> u -> snd (m h) r = h r.

(** The entries of a marked list, the marker left out, as a multiset. *)
Definition unmarked (l : list string) : gmultiset string :=
  list_to_set_disj (filter (fun s => s <> "") l).

(** The digits at the positions where the two lists agree. *)
Fixpoint bull_digits (secret guess : list string) : list string :=
  match secret, guess with
  | s :: secret', g :: guess' =>
      if bool_decide (s = g) then s :: bull_digits secret' guess'
      else bull_digits secret' guess'
  | _, _ => []
  end.

(** ** The console, the random source and the clock

    The state of the whole program: the list objects, the outside world of
    [highscore], the lines the user is going to type, and the values that
    [random] and [time.time] are going to give. A typed line is given by its
    UTF-8 encoding. What the clock shows depends on the moment of the
    dialogue at which it is read: [clock k n] is what the call number [n] of
    [time.time] returns when it is made while [k] of the typed lines have
    not been read yet. *)

Record session : Type := {
  objects : heap;
  allocated : loc;
  outside : world;
  typed : list string;
  random_source : nat -> Z;
  draws : nat;
  clock : nat -> nat -> float;
  ticks : nat
}.

(** A computation of the program. [None]: the call does not complete. It is
    stopped in [input], which has no line left to read: at a terminal it
    waits for ever; at the end of a file or a pipe it raises [EOFError], which
    the program catches nowhere. *)
Definition prog (A : Type) : Type := session -> option (outcome A * session).

#[global] Instance prog_ret : MRet prog := fun A a s => Some (Returns a, s).

#[global] Instance prog_bind : MBind prog := fun A B f m s =>
  match m s with
  | Some (Returns a, s') => f a s'
  | Some (Raises e, s') => Some (Raises e, s')
  | None => None
  end.

(** A computation on the list objects, run inside the program. *)
Definition on_store {A : Type} (m : M A) : prog A := fun s =>
  let '(r, h) := m (objects s) in
  Some (r, {| objects := h; allocated := allocated s; outside := outside s;
              typed := typed s; random_source := random_source s;
              draws := draws s; clock := clock s; ticks := ticks s |}).

(** A computation on the score file and the console output. *)
Definition on_world {A : Type} (m : eff world A) : prog A := fun s =>
  let '(r, w) := m (outside s) in
  Some (r, {| objects := objects s; allocated := allocated s; outside := w;
              typed := typed s; random_source := random_source s;
              draws := draws s; clock := clock s; ticks := ticks s |}).

(** A computation without state. *)
Definition on_value {A : Type} (o : outcome A) : prog A := fun s => Some (o, s).

(** [list(text)] and the like: a new list object. *)
Definition new_list (l : list string) : prog loc := fun s =>
  Some (Returns (allocated s),
        {| objects := heap_update (objects s) (allocated s) l;
           allocated := S (allocated s); outside := outside s;
           typed := typed s; random_source := random_source s;
           draws := draws s; clock := clock s; ticks := ticks s |}).

(** [input(prompt)]: the prompt is written, the next typed line, without
    its newline, is the result. *)
Definition input (prompt : string) : prog string := fun s =>
  match typed s with
  | [] => None
  | line :: rest =>
      Some (Returns line,
            {| objects := objects s; allocated := allocated s;
               outside := {| score_file := score_file (outside s);
                             write_error := write_error (outside s);
                             stdout := stdout (outside s) ++ [prompt] |};
               typed := rest; random_source := random_source s;
               draws := draws s; clock := clock s; ticks := ticks s |})
  end.

(** [print(text)]. *)
Definition say (text : string) : prog unit := on_world (print text).

(** [random.randint(a, b)], for [a <= b]: some integer between the two. *)
Definition randint (a b : Z) : prog Z := fun s =>
  Some (Returns (a + random_source s (draws s) mod (b - a + 1)),
        {| objects := objects s; allocated := allocated s; outside := outside s;
           typed := typed s; random_source := random_source s;
           draws := S (draws s); clock := clock s; ticks := ticks s |}).

(** [time.time()]. *)
Definition time_time : prog float := fun s =>
  Some (Returns (clock s (length (typed s)) (ticks s)),
        {| objects := objects s; allocated := allocated s; outside := outside s;
           typed := typed s; random_source := random_source s;
           draws := draws s; clock := clock s; ticks := S (ticks s) |}).

(** [while True: body], with the local variables the body assigns as the
    loop state: the body gives [inl] of them to go round again and [inr] of
    the result at [break] or [return]. Every loop of the program calls
    [input] in each round, so it goes round at most once per typed line
    before it is stopped in [input]; [rounds] is given one round more than
    that, and more rounds would change nothing ([rounds_enough]). *)
Fixpoint rounds {L A : Type} (n : nat) (body : L -> prog (L + A)) (l : L)
    : prog A :=
  match n with
  | O => fun _ => None
  | S n' =>
      r ← body l;
      match r with
      | inl l' => rounds n' body l'
      | inr a => mret a
      end
  end.

Definition while_true {L A : Type} (body : L -> prog (L + A)) (l : L) : prog A :=
  fun s => rounds (S (length (typed s))) body l s.

(** ** Text layout *)

Definition CENTER_WIDTH : nat := 80.
Definition MIN_NUMBER : Z := 1000.
Definition MAX_NUMBER : Z := 9999.

(** [' ' * n]. *)
Fixpoint spaces (n : nat) : string :=
  match n with
  | O => EmptyString
  | S n' => String " " (spaces n')
  end.

(** ['-' * n]. *)
Fixpoint dashes (n : nat) : string :=
  match n with
  | O => EmptyString
  | S n' => String "-" (dashes n')
  end.

Definition DIVIDER : string := dashes CENTER_WIDTH.

(** [s.center(width)]: when the padding is odd, the extra space goes to the
    left if the width is odd too, to the right otherwise. *)
Definition center (s : string) (width : nat) : string :=
  let marg := (width - String.length s)%nat in
  let left := (marg / 2 + (if Nat.odd marg && Nat.odd width then 1 else 0))%nat in
  (spaces left ++ s ++ spaces (marg - left))%string.

(** [f'{s:^width}']: when the padding is odd, the extra space goes to the
    right. *)
Definition format_center (s : string) (width : nat) : string :=
  let marg := (width - String.length s)%nat in
  (spaces (marg / 2) ++ s ++ spaces (marg - marg / 2))%string.

(** [s.rjust(width)]. *)
Definition rjust (s : string) (width : nat) : string :=
  (spaces (width - String.length s) ++ s)%string.

(** [sep.join(parts)]. *)
Definition join (sep : string) (parts : list string) : string :=
  String.concat sep parts.

Definition ascii_upper (c : ascii) : ascii :=
  let n := nat_of_ascii c in
  if ((97 <=? n) && (n <=? 122))%nat then ascii_of_nat (n - 32) else c.

Definition ascii_lower_char (c : ascii) : ascii :=
  let n := nat_of_ascii c in
  if ((65 <=? n) && (n <=? 90))%nat then ascii_of_nat (n + 32) else c.

Fixpoint ascii_lower (s : string) : string :=
  match s with
  | EmptyString => EmptyString
  | String c s' => String (ascii_lower_char c) (ascii_lower s')
  end.

(** [s.capitalize()] for a string of ASCII characters. *)
Definition capitalize (s : string) : string :=
  match s with
  | EmptyString => EmptyString
  | String c s' => String (ascii_upper c) (ascii_lower s')
  end.

(** [s.isdigit()] for a string of ASCII characters. *)
Fixpoint all_ascii_digits (s : string) : bool :=
  match s with
  | EmptyString => true
  | String c s' =>
      ((48 <=? nat_of_ascii c) && (nat_of_ascii c <=? 57))%nat
      && all_ascii_digits s'
  end.

Definition ascii_isdigit (s : string) : bool :=
  negb (String.eqb s "") && all_ascii_digits s.

(** ** game_functions.py: the text of the game *)

Definition introduction (divider : string) : string :=
  (newline ++ divider ++ newline ++ newline
   ++ center "BULLS and COWS" CENTER_WIDTH ++ newline ++ newline
   ++ center "aka" CENTER_WIDTH ++ newline
   ++ center "'Mastermind'" CENTER_WIDTH ++ newline ++ newline
   ++ divider ++ newline ++ newline
   ++ center ("I've generated a random "
              ++ str_of_int (Z.of_nat NUMBER_LENGTH)
              ++ " digit number for you.") CENTER_WIDTH ++ newline
   ++ center "Guess which one is it." CENTER_WIDTH ++ newline ++ newline
   ++ divider)%string.

Definition get_plurals (bulls cows : Z) : string * string :=
  let bulls_word := if bulls =? 1 then "bull " else "bulls" in
  let cows_word := if cows =? 1 then "cow " else "cows" in
  (bulls_word, cows_word).

(** [[f(i, x) for i, x in enumerate(l)]], counting from [i]. *)
Fixpoint enumerate_from {A B : Type} (i : Z) (f : Z -> A -> B) (l : list A)
    : list B :=
  match l with
  | [] => []
  | x :: l' => f i x :: enumerate_from (i + 1) f l'
  end.

Definition end_credits (divider : string) (mins secs : Z)
    (high_scores : list Z) (attempts : Z) : string :=
  let minutes_label :=
    if mins =? 0 then "" else (str_of_int mins ++ " min and ")%string in
  let highscore_lines :=
    enumerate_from 0
      (fun i score =>
         (str_of_int (i + 1) ++ ". " ++ rjust (str_of_int score) 5 ++ " sec")%string)
      high_scores in
  let highscore_text :=
    join newline (map (fun line => center line CENTER_WIDTH) highscore_lines) in
  (newline ++ divider ++ newline
   ++ center "CONGRATULATIONS!" CENTER_WIDTH ++ newline
   ++ format_center ("You won in " ++ minutes_label ++ str_of_int secs ++ " sec.")
        CENTER_WIDTH ++ newline
   ++ format_center ("with " ++ str_of_int attempts ++ " attempts") CENTER_WIDTH
   ++ newline
   ++ divider ++ newline
   ++ center "TOP SCORES" CENTER_WIDTH ++ newline
   ++ highscore_text ++ newline
   ++ divider)%string.

(** ** Characters

    A [str] is held as its UTF-8 encoding. [code_points s] is [list(s)], the
    characters of [s]: each of them is a byte that is no continuation byte,
    with the continuation bytes that follow it. [len(s)] is the length of
    this list. On ASCII text a character is a byte. *)

Definition continuation_byte (c : ascii) : bool :=
  ((128 <=? nat_of_ascii c) && (nat_of_ascii c <=? 191))%nat.

Fixpoint code_points (s : string) : list string :=
  match s with
  | EmptyString => []
  | String c s' =>
      let rest := code_points s' in
      match s' with
      | String d _ =>
          if continuation_byte d then
            match rest with
            | cp :: cps => String c cp :: cps
            | [] => [String c EmptyString]
            end
          else String c EmptyString :: rest
      | EmptyString => [String c EmptyString]
      end
  end.

(** The four fullwidth digits U+FF11 to U+FF14, which [str.isdigit] accepts,
    and the two Arabic-Indic digits U+0663 and U+0664. *)
Definition fullwidth_1234 : string :=
  String "239" (String "188" (String "145"
  (String "239" (String "188" (String "146"
  (String "239" (String "188" (String "147"
  (String "239" (String "188" (String "148" EmptyString))))))))))).

Definition arabic_34 : string :=
  String "217" (String "163" (String "217" (String "164" EmptyString))).

(** ** game_functions.py and main.py: the dialogue *)

Section Game.

(** The builtins [str.isdigit], [str.strip], [str.lower] and [int]. *)
Variable isdigit : string -> bool.
Variable strip : string -> string.
Variable lower : string -> string.
Variable int_of_str : string -> option Z.

(** One round of the loop of [get_user_input]. *)
Definition get_user_input_round (_ : unit) : prog (unit + string) :=
  line ← input (spaces 38);
  let user_number := strip line in
  if negb (isdigit user_number) then
    _ ← say (newline ++ center "NOT a number! Enter the number:" CENTER_WIDTH);
    mret (inl tt)
  else if negb (length (code_points user_number) =? NUMBER_LENGTH)%nat then
    _ ← say (newline
             ++ center ("NOT " ++ str_of_int (Z.of_nat NUMBER_LENGTH)
                        ++ " digits! Enter the number:") CENTER_WIDTH);
    mret (inl tt)
  else if String.prefix "0" user_number then
    _ ← say (newline
             ++ center "CANNOT start with zero! Enter the number:" CENTER_WIDTH);
    mret (inl tt)
  else mret (inr user_number).

Definition get_user_input : prog loc :=
  user_number ← while_true get_user_input_round tt;
  new_list (code_points user_number).

(** One round of the loop of [ask_to_continue]. *)
Definition ask_to_continue_round (_ : unit) : prog (unit + bool) :=
  line ← input (newline ++ center "Play again? (y/n):" CENTER_WIDTH
                ++ newline ++ spaces 38);
  let answer := lower (strip line) in
  if String.eqb answer "y" || String.eqb answer "n" then
    mret (inr (String.eqb answer "y"))
  else
    _ ← say (newline ++ center "Please enter y or n:" CENTER_WIDTH);
    mret (inl tt).

Definition ask_to_continue : prog bool := while_true ask_to_continue_round tt.

(** [generated_number = list(str(random.randint(MIN_NUMBER, MAX_NUMBER)))];
    the characters of a numeral are its bytes. *)
Definition generate_number : prog loc :=
  number ← randint MIN_NUMBER MAX_NUMBER;
  new_list (chars (str_of_int number)).

(** The line [play_game] prints after each guess:
    [f'{bulls_word.capitalize()} {bulls:^34} {cows:^35} {cows_word.capitalize()}'] *)
Definition feedback (bulls cows : Z) : string :=
  let '(bulls_word, cows_word) := get_plurals bulls cows in
  (capitalize bulls_word ++ " " ++ format_center (str_of_int bulls) 34
   ++ " " ++ format_center (str_of_int cows) 35
   ++ " " ++ capitalize cows_word)%string.

(** The body of the inner loop of [play_game]: one guess. The loop state is
    [attempts] and [start_time]. *)
Definition one_attempt (generated_number : loc) (locals : Z * option float)
    : prog (Z * option float + Z * float * float) :=
  let '(attempts, start_time) := locals in
  _ ← say (newline ++ center "Enter the number:" CENTER_WIDTH);
  user_number ← get_user_input;
  start_time ← match start_time with
                | None => time_time
                | Some t => mret t
                end;
  '(bulls, cows) ← on_store (evaluate_guess generated_number user_number);
  _ ← say (feedback bulls cows);
  let attempts := attempts + 1 in
  if bulls =? Z.of_nat NUMBER_LENGTH then
    end_time ← time_time;
    mret (inr (attempts, start_time, end_time))
  else mret (inl (attempts, Some start_time)).

(** The body of the outer loop of [play_game]: one game. The loop state is
    [first_game]. *)
Definition one_game (first_game : bool) : prog (bool + unit) :=
  _ ← (if first_game then say (introduction DIVIDER)
       else say (newline ++ DIVIDER));
  generated_number ← generate_number;
  '(attempts, start_time, end_time) ←
    while_true (one_attempt generated_number) (0, None);
  '(mins, secs, score) ← on_value (calculate_time start_time end_time);
  high_scores ← on_world (highscore int_of_str strip score);
  _ ← say (end_credits DIVIDER mins secs high_scores attempts);
  again ← ask_to_continue;
  if negb again then mret (inr tt) else mret (inl false).

Definition play_game : prog unit := while_true one_game true.

(** *** What the dialogue accepts *)

(** A line that passes the three tests of [get_user_input]. *)
Definition acceptable (line : string) : bool :=
  isdigit (strip line)
  && (length (code_points (strip line)) =? NUMBER_LENGTH)%nat
  && negb (String.prefix "0" (strip line)).

(** What [get_user_input] prints about a line it does not accept. *)
Definition complaint (line : string) : string :=
  if negb (isdigit (strip line)) then
    (newline ++ center "NOT a number! Enter the number:" CENTER_WIDTH)%string
  else if negb (length (code_points (strip line)) =? NUMBER_LENGTH)%nat then
    (newline ++ center ("NOT " ++ str_of_int (Z.of_nat NUMBER_LENGTH)
                        ++ " digits! Enter the number:") CENTER_WIDTH)%string
  else
    (newline ++ center "CANNOT start with zero! Enter the number:" CENTER_WIDTH)%string.

(** The typed lines that are left when the first accepted one has been
    read. *)
Fixpoint after_first_accepted (lines : list string) : list string :=
  match lines with
  | [] => []
  | line :: lines' =>
      if acceptable line then lines' else after_first_accepted lines'
  end.

(** A line [ask_to_continue] takes for an answer. *)
Definition answers (line : string) : bool :=
  String.eqb (lower (strip line)) "y" || String.eqb (lower (strip line)) "n".

End Game.

(** *** The state after some lines were read and some text was printed *)

Definition with_output (out : list string) (w : world) : world :=
  {| score_file := score_file w;
     write_error := write_error w;
     stdout := stdout w ++ out |}.

Definition reads (out rest : list string) (s : session) : session :=
  {| objects := objects s; allocated := allocated s;
     outside := with_output out (outside s);
     typed := rest; random_source := random_source s;
     draws := draws s; clock := clock s; ticks := ticks s |}.

(** A loop body that reads at least one line whenever it completes. *)
Definition consumes {L A : Type} (body : L -> prog (L + A)) : Prop :=
  forall l s r s',
    body l s = Some (Returns r, s') ->
    (length (typed s') < length (typed s))%nat.

(** A session at the start of the program: no list object yet, no score
    file, nothing printed; the user is going to type [lines], and the clock
    shows [times n] at the call number [n] of [time.time]. *)
Definition console (lines : list string) (numbers : nat -> Z)
    (times : nat -> float) : session :=
  {| objects := fun _ => []; allocated := 0%nat;
     outside := {| score_file := Missing; write_error := None; stdout := [] |};
     typed := lines; random_source := numbers; draws := 0%nat;
     clock := fun _ => times; ticks := 0%nat |}.

(** The decimal form of [n] is four digits, the first of them not a zero. *)
Definition four_digit_numeral (n : Z) : bool :=
  let l := chars (str_of_int n) in
  (length l =? NUMBER_LENGTH)%nat
  && forallb (fun c => bool_decide
                         (c ∈ ["0"; "1"; "2"; "3"; "4"; "5"; "6"; "7"; "8"; "9"]))
             l
  && negb (bool_decide (head l = Some "0")).

(** ** Several games *)

Section HighscoreEach.

Variable int_of_str : string -> option Z.
Variable strip : string -> string.

(** The calls of [highscore] that [play_game] makes over several games, one
    for each score of [scores] in order; the value is the list returned by
    the last call. *)
Definition highscore_each (scores : list Z) : eff world (list Z) :=
  for_each scores (fun score _ => highscore int_of_str strip score) [].

End HighscoreEach.

(** A string made of decimal digits and minus signs. *)
Fixpoint numeral_chars (s : string) : bool :=
  match s with
  | EmptyString => true
  | String c s' =>
      (((48 <=? nat_of_ascii c) && (nat_of_ascii c <=? 57))
       || (nat_of_ascii c =? 45))%nat
      && numeral_chars s'
  end.

(** * Part II: properties *)

(** ** Running the monad *)

Lemma bind_returns {St A B : Type} (m : eff St A) (f : A -> eff St B)
    (h h' : St) (a : A) :
  m h = (Returns a, h') -> (m ≫= f) h = f a h'.
Proof. intros E. unfold mbind, eff_bind. now rewrite E. Qed.

Lemma bind_raises {St A B : Type} (m : eff St A) (f : A -> eff St B)
    (h h' : St) (e : exn) :
  m h = (Raises e, h') -> (m ≫= f) h = (Raises e, h').
Proof. intros E. unfold mbind, eff_bind. now rewrite E. Qed.

Lemma heap_update_same (h : heap) (r : loc) (l : list string) :
  heap_update h r l r = l.
Proof. unfold heap_update. now rewrite Nat.eqb_refl. Qed.

Lemma heap_update_other (h : heap) (r r' : loc) (l : list string) :
  r' <> r -> heap_update h r l r' = h r'.
Proof.
  intros Hne. unfold heap_update.
  destruct (Nat.eqb_spec r' r); [contradiction | reflexivity].
Qed.

Lemma index_from_bound (l : list string) (x : string) (i j : nat) :
  index_from l x i = Some j -> (i <= j < i + length l)%nat.
Proof.
  revert i. induction l as [|y l IH]; intros i; simpl; [discriminate|].
  case_bool_decide.
  - intros [= <-]. lia.
  - intros E. apply IH in E. lia.
Qed.

Lemma contains_index_from (l : list string) (x : string) (i : nat) :
  contains x l = true -> exists j, index_from l x i = Some j.
Proof.
  unfold contains. rewrite bool_decide_eq_true.
  revert i. induction l as [|y l IH]; intros i Hin.
  - inversion Hin.
  - simpl. case_bool_decide; [eauto|].
    apply IH. inversion Hin; subst; [congruence | assumption].
Qed.

(** One iteration of the first loop. *)
Lemma bulls_body_run (user_number : loc) (i : nat) (bulls : Z)
    (gcopy : list string) (h : heap) (a b : string) :
  gcopy !! i = Some a ->
  h user_number !! i = Some b ->
  bulls_body user_number i (bulls, gcopy) h =
    if bool_decide (a = b)
    then (Returns (bulls + 1, <[i:=""]> gcopy),
          heap_update h user_number (<[i:=""]> (h user_number)))
    else (Returns (bulls, gcopy), h).
Proof.
  intros Ha Hb.
  assert (i < length gcopy)%nat by (eapply lookup_lt_Some; eassumption).
  assert (i < length (h user_number))%nat by (eapply lookup_lt_Some; eassumption).
  unfold bulls_body, getitem, heap_getitem, setitem, heap_setitem,
    mbind, eff_bind, mret, eff_ret.
  rewrite Ha, Hb.
  case_bool_decide; [|reflexivity].
  now rewrite !bool_decide_eq_true_2 by assumption.
Qed.

Lemma bulls_body_short (user_number : loc) (i : nat) (s : Z * list string)
    (h : heap) :
  s.2 !! i = None \/ h user_number !! i = None ->
  bulls_body user_number i s h = (Raises IndexError, h).
Proof.
  destruct s as [bulls gcopy]. simpl.
  unfold bulls_body, getitem, heap_getitem, raise, mbind, eff_bind, mret, eff_ret.
  intros [E|E].
  - now rewrite E.
  - destruct (gcopy !! i); [|reflexivity]. now rewrite E.
Qed.

(** The first loop against [bulls_pass]: positions [i .. i+n-1], with the
    first [i] positions of both lists already behind the loop. *)
Lemma bulls_loop_returns (user_number : loc) (n : nat) :
  forall (gp g up u : list string) (bulls k : Z) (g1 u1 : list string) (h : heap),
    h user_number = up ++ u ->
    length gp = length up ->
    bulls_pass n g u = Some (k, g1, u1) ->
    exists h',
      for_each (seq (length gp) n) (bulls_body user_number) (bulls, gp ++ g) h
        = (Returns (bulls + k, gp ++ g1), h')
      /\ h' user_number = up ++ u1
      /\ (forall r, r <> user_number -> h' r = h r).
Proof.
  induction n as [|n IH]; intros gp g up u bulls k g1 u1 h Hu Hlen Hpass.
  - simpl in Hpass. injection Hpass as <- <- <-.
    exists h. simpl. rewrite Z.add_0_r. auto.
  - simpl in Hpass.
    destruct g as [|a g']; [discriminate|].
    destruct u as [|b u']; [discriminate|].
    destruct (bulls_pass n g' u') as [[[k' g1'] u1']|] eqn:Hrec; [|discriminate].
    assert (Hga : (gp ++ a :: g') !! length gp = Some a)
      by (rewrite lookup_app_r, Nat.sub_diag; [reflexivity | lia]).
    assert (Hub : h user_number !! length gp = Some b)
      by (rewrite Hu, Hlen, lookup_app_r, Nat.sub_diag; [reflexivity | lia]).
    pose proof (bulls_body_run user_number _ bulls _ h a b Hga Hub) as Hstep.
    cbn [seq for_each].
    destruct (bool_decide (a = b)); injection Hpass as <- <- <-;
      rewrite (bind_returns _ _ _ _ _ Hstep).
    + set (h1 := heap_update h user_number (<[length gp:=""]> (h user_number))).
      destruct (IH (gp ++ [""]) g' (up ++ [""]) u' (bulls + 1) k' g1' u1' h1)
        as (h' & Hrun & Hh'u & Hh'o).
      * unfold h1. rewrite heap_update_same, Hu, Hlen.
        rewrite insert_app_r_alt, Nat.sub_diag by lia. simpl.
        now rewrite <- app_assoc.
      * rewrite !length_app. simpl. lia.
      * assumption.
      * exists h'. split; [|split].
        -- rewrite length_app in Hrun. simpl in Hrun.
           rewrite Nat.add_1_r in Hrun.
           rewrite insert_app_r_alt, Nat.sub_diag by lia. simpl.
           rewrite <- !app_assoc in Hrun. simpl in Hrun.
           replace (bulls + (k' + 1)) with (bulls + 1 + k') by lia. exact Hrun.
        -- rewrite Hh'u, <- app_assoc. reflexivity.
        -- intros r Hr. rewrite Hh'o by assumption.
           unfold h1. now rewrite heap_update_other.
    + destruct (IH (gp ++ [a]) g' (up ++ [b]) u' bulls k' g1' u1' h)
        as (h' & Hrun & Hh'u & Hh'o).
      * rewrite Hu, <- app_assoc. reflexivity.
      * rewrite !length_app. simpl. lia.
      * assumption.
      * exists h'. split; [|split]; [| |assumption].
        -- rewrite length_app in Hrun. simpl in Hrun.
           rewrite Nat.add_1_r in Hrun.
           rewrite <- !app_assoc in Hrun. simpl in Hrun. exact Hrun.
        -- rewrite Hh'u, <- app_assoc. reflexivity.
Qed.

Lemma bulls_loop_raises (user_number : loc) (n : nat) :
  forall (gp g up u : list string) (bulls : Z) (h : heap),
    h user_number = up ++ u ->
    length gp = length up ->
    bulls_pass n g u = None ->
    exists h',
      for_each (seq (length gp) n) (bulls_body user_number) (bulls, gp ++ g) h
        = (Raises IndexError, h').
Proof.
  induction n as [|n IH]; intros gp g up u bulls h Hu Hlen Hpass;
    [discriminate|].
  simpl in Hpass. cbn [seq for_each].
  destruct g as [|a g'].
  { exists h. apply bind_raises, bulls_body_short. left. simpl.
    apply lookup_ge_None. rewrite length_app. simpl. lia. }
  destruct u as [|b u'].
  { exists h. apply bind_raises, bulls_body_short. right.
    apply lookup_ge_None. rewrite Hu, length_app. simpl. lia. }
  assert (Hga : (gp ++ a :: g') !! length gp = Some a)
    by (rewrite lookup_app_r, Nat.sub_diag; [reflexivity | lia]).
  assert (Hub : h user_number !! length gp = Some b)
    by (rewrite Hu, Hlen, lookup_app_r, Nat.sub_diag; [reflexivity | lia]).
  pose proof (bulls_body_run user_number _ bulls _ h a b Hga Hub) as Hstep.
  destruct (bulls_pass n g' u') as [[[k' g1'] u1']|] eqn:Hrec.
  { destruct (bool_decide (a = b)); discriminate. }
  destruct (bool_decide (a = b)); rewrite (bind_returns _ _ _ _ _ Hstep).
  - set (h1 := heap_update h user_number (<[length gp:=""]> (h user_number))).
    destruct (IH (gp ++ [""]) g' (up ++ [""]) u' (bulls + 1) h1) as (h' & Hrun).
    + unfold h1. rewrite heap_update_same, Hu, Hlen.
      rewrite insert_app_r_alt, Nat.sub_diag by lia. simpl.
      now rewrite <- app_assoc.
    + rewrite !length_app. simpl. lia.
    + assumption.
    + exists h'. rewrite length_app in Hrun. simpl in Hrun.
      rewrite Nat.add_1_r, <- app_assoc in Hrun. simpl in Hrun.
      rewrite insert_app_r_alt, Nat.sub_diag by lia. exact Hrun.
  - destruct (IH (gp ++ [a]) g' (up ++ [b]) u' bulls h) as (h' & Hrun).
    + rewrite Hu, <- app_assoc. reflexivity.
    + rewrite !length_app. simpl. lia.
    + assumption.
    + exists h'. rewrite length_app in Hrun. simpl in Hrun.
      rewrite Nat.add_1_r, <- app_assoc in Hrun. exact Hrun.
Qed.

Lemma bulls_pass_length (n : nat) :
  forall (g u g1 u1 : list string) (k : Z),
    bulls_pass n g u = Some (k, g1, u1) ->
    length g1 = length g /\ length u1 = length u
    /\ (n <= length g)%nat /\ (n <= length u)%nat.
Proof.
  induction n as [|n IH]; intros g u g1 u1 k Hpass; simpl in Hpass.
  - injection Hpass as <- <- <-. repeat split; lia.
  - destruct g as [|a g']; [discriminate|].
    destruct u as [|b u']; [discriminate|].
    destruct (bulls_pass n g' u') as [[[k' g1'] u1']|] eqn:Hrec; [|discriminate].
    destruct (IH _ _ _ _ _ Hrec) as (? & ? & ? & ?).
    destruct (bool_decide (a = b)); injection Hpass as <- <- <-;
      simpl; repeat split; lia.
Qed.

Lemma bulls_pass_total (n : nat) :
  forall (g u : list string),
    (n <= length g)%nat -> (n <= length u)%nat ->
    exists k g1 u1, bulls_pass n g u = Some (k, g1, u1).
Proof.
  induction n as [|n IH]; intros g u Hg Hu; simpl; [eauto|].
  destruct g as [|a g']; [simpl in Hg; lia|].
  destruct u as [|b u']; [simpl in Hu; lia|].
  destruct (IH g' u') as (k & g1 & u1 & ->); [simpl in *; lia ..|].
  destruct (bool_decide (a = b)); eauto.
Qed.

Lemma bulls_pass_none (n : nat) (g u : list string) :
  (length g < n)%nat \/ (length u < n)%nat -> bulls_pass n g u = None.
Proof.
  intros Hshort.
  destruct (bulls_pass n g u) as [[[k g1] u1]|] eqn:E; [|reflexivity].
  apply bulls_pass_length in E. lia.
Qed.

(** One iteration of the second loop. *)
Lemma cows_body_run (user_number : loc) (i : nat) (cows : Z)
    (gcopy : list string) (h : heap) (u : string) :
  h user_number !! i = Some u ->
  cows_body user_number i (cows, gcopy) h =
    (Returns (if bool_decide (u ≠ "") && contains u gcopy
              then (cows + 1, mark_first u gcopy)
              else (cows, gcopy)), h).
Proof.
  intros Hu.
  unfold cows_body, heap_getitem, list_index, setitem, mark_first,
    mbind, eff_bind, mret, eff_ret.
  rewrite Hu.
  destruct (bool_decide (u ≠ "")); [|reflexivity]. simpl.
  destruct (contains u gcopy) eqn:Hin; [|reflexivity].
  rewrite Hu.
  destruct (contains_index_from _ _ 0%nat Hin) as [j Hj]. rewrite Hj.
  apply index_from_bound in Hj.
  now rewrite bool_decide_eq_true_2 by lia.
Qed.

(** The second loop against [cows_pass]; it leaves the store alone. *)
Lemma cows_loop_returns (user_number : loc) (us : list string) :
  forall (up tl gcopy : list string) (cows : Z) (h : heap),
    h user_number = up ++ us ++ tl ->
    exists gcopy',
      for_each (seq (length up) (length us)) (cows_body user_number)
               (cows, gcopy) h
        = (Returns (cows + cows_pass us gcopy, gcopy'), h).
Proof.
  induction us as [|u us IH]; intros up tl gcopy cows h Hh.
  - exists gcopy. simpl. now rewrite Z.add_0_r.
  - cbn [length seq for_each cows_pass].
    assert (Hu : h user_number !! length up = Some u)
      by (rewrite Hh, lookup_app_r, Nat.sub_diag; [reflexivity | lia]).
    rewrite (bind_returns _ _ _ _ _ (cows_body_run _ _ cows gcopy _ _ Hu)).
    assert (Hh' : h user_number = (up ++ [u]) ++ us ++ tl)
      by (rewrite Hh, <- app_assoc; reflexivity).
    destruct (bool_decide (u ≠ "") && contains u gcopy).
    + destruct (IH (up ++ [u]) tl (mark_first u gcopy) (cows + 1) h Hh')
        as [gcopy' Hrun].
      exists gcopy'. rewrite length_app, Nat.add_1_r in Hrun. simpl in Hrun.
      rewrite Hrun. do 3 f_equal. lia.
    + destruct (IH (up ++ [u]) tl gcopy cows h Hh') as [gcopy' Hrun].
      exists gcopy'. rewrite length_app, Nat.add_1_r in Hrun. exact Hrun.
Qed.

(** [evaluate_guess] in terms of the two passes. *)
Lemma evaluate_guess_returns (generated_number user_number : loc) (h : heap)
    (k : Z) (g1 u1 : list string) :
  bulls_pass NUMBER_LENGTH (h generated_number) (h user_number)
    = Some (k, g1, u1) ->
  exists h',
    evaluate_guess generated_number user_number h
      = (Returns (k, cows_pass (take NUMBER_LENGTH u1) g1), h')
    /\ h' user_number = u1
    /\ (forall r, r <> user_number -> h' r = h r).
Proof.
  intros Hpass.
  destruct (bulls_loop_returns user_number NUMBER_LENGTH [] (h generated_number)
              [] (h user_number) 0 k g1 u1 h eq_refl eq_refl Hpass)
    as (h1 & Hrun1 & Hh1u & Hh1o).
  apply bulls_pass_length in Hpass as (_ & Hlen & _ & Hn).
  destruct (cows_loop_returns user_number (take NUMBER_LENGTH u1) []
              (drop NUMBER_LENGTH u1) g1 0 h1) as [g2 Hrun2].
  { simpl. now rewrite take_drop. }
  rewrite length_take_le in Hrun2 by lia.
  cbn [app length] in Hrun1, Hrun2. rewrite Z.add_0_l in Hrun1, Hrun2.
  exists h1. split; [|auto].
  unfold evaluate_guess, range.
  erewrite bind_returns; [|reflexivity].
  erewrite bind_returns; [|exact Hrun1]. cbn beta iota.
  erewrite bind_returns; [|exact Hrun2].
  reflexivity.
Qed.

Lemma evaluate_guess_raises (generated_number user_number : loc) (h : heap) :
  (length (h generated_number) < NUMBER_LENGTH)%nat
  \/ (length (h user_number) < NUMBER_LENGTH)%nat ->
  exists h',
    evaluate_guess generated_number user_number h = (Raises IndexError, h').
Proof.
  intros Hshort. apply bulls_pass_none in Hshort.
  destruct (bulls_loop_raises user_number NUMBER_LENGTH [] (h generated_number)
              [] (h user_number) 0 h eq_refl eq_refl Hshort) as (h1 & Hrun1).
  cbn [app length] in Hrun1.
  exists h1. unfold evaluate_guess, range.
  erewrite bind_returns; [|reflexivity].
  erewrite bind_raises; [|exact Hrun1].
  reflexivity.
Qed.

(** ** The marked lists against the reference's flags *)

Lemma count_bulls_cons (b : bool) (marks : list bool) :
  Reference.count_bulls (b :: marks)
  = Reference.count_bulls marks + (if b then 1 else 0).
Proof.
  unfold Reference.count_bulls. destruct b.
  - rewrite filter_cons_True by reflexivity. simpl length. lia.
  - rewrite filter_cons_False by discriminate. lia.
Qed.

Lemma bulls_pass_matches (g u : list string) :
  length g = length u ->
  bulls_pass (length g) g u
  = Some (Reference.count_bulls (Reference.matches g u),
          mask g (Reference.matches g u), mask u (Reference.matches g u)).
Proof.
  revert u. induction g as [|a g IH]; intros [|b u] Hlen;
    try discriminate; [reflexivity|].
  injection Hlen as Hlen. cbn [length bulls_pass].
  rewrite (IH u Hlen).
  change (Reference.matches (a :: g) (b :: u))
    with (bool_decide (a = b) :: Reference.matches g u).
  rewrite count_bulls_cons.
  destruct (bool_decide (a = b)); simpl; [reflexivity|].
  now rewrite Z.add_0_r.
Qed.

Lemma index_from_mask (d : string) :
  d <> "" ->
  forall (g : list string) (cs : list bool) (i : nat),
    index_from (mask g cs) d i
    = (fun j => (i + j)%nat) <$> Reference.first_match g cs d.
Proof.
  intros Hd. induction g as [|s g IH]; intros [|c cs] i; try reflexivity.
  cbn [mask zip_with index_from Reference.first_match]. fold (mask g cs).
  destruct c; simpl.
  - rewrite bool_decide_eq_false_2 by congruence.
    rewrite IH. destruct (Reference.first_match g cs d); simpl; [|reflexivity].
    f_equal. lia.
  - case_bool_decide; simpl; [f_equal; lia|].
    rewrite IH. destruct (Reference.first_match g cs d); simpl; [|reflexivity].
    f_equal. lia.
Qed.

Lemma index_from_none_contains (l : list string) (x : string) (i : nat) :
  index_from l x i = None -> contains x l = false.
Proof.
  destruct (contains x l) eqn:E; [|reflexivity].
  destruct (contains_index_from l x i E) as [j ->]. discriminate.
Qed.

Lemma index_from_some_contains (l : list string) (x : string) (i j : nat) :
  index_from l x i = Some j -> contains x l = true.
Proof.
  unfold contains. rewrite bool_decide_eq_true.
  revert i. induction l as [|y l IH]; intros i; simpl; [discriminate|].
  case_bool_decide; subst.
  - intros _. left.
  - intros E. right. eauto.
Qed.

Lemma mask_insert (g : list string) :
  forall (cs : list bool) (j : nat),
    <[j:=""]> (mask g cs) = mask g (<[j:=true]> cs).
Proof.
  induction g as [|s g IH]; intros [|c cs] j; try reflexivity.
  destruct j as [|j]; simpl; [reflexivity|].
  fold (mask g cs). now rewrite IH.
Qed.

(** The second pass of the code on the marked lists is the second pass of the
    reference on the flags, when no guess digit is the marker itself. *)
Lemma cows_pass_reference (secret : list string) :
  forall (guess : list string) (marks consumed : list bool),
    Forall (fun d => d <> "") guess ->
    cows_pass (mask guess marks) (mask secret consumed)
    = Reference.count_cows secret (zip guess marks) consumed.
Proof.
  induction guess as [|d guess IH]; intros [|m marks] consumed Hd;
    try reflexivity.
  inversion Hd as [|? ? Hd1 Hd2]; subst.
  cbn [mask zip_with zip cows_pass Reference.count_cows].
  fold (mask guess marks). fold (zip guess marks).
  destruct m.
  - rewrite bool_decide_eq_false_2 by (intros E; now apply E). simpl.
    now apply IH.
  - rewrite bool_decide_eq_true_2 by assumption. simpl.
    pose proof (index_from_mask d Hd1 secret consumed 0) as Hidx.
    destruct (Reference.first_match secret consumed d) as [j|]; simpl in Hidx.
    + rewrite (index_from_some_contains _ _ _ _ Hidx).
      unfold mark_first. rewrite Hidx, mask_insert. f_equal. now apply IH.
    + rewrite (index_from_none_contains _ _ _ Hidx). now apply IH.
Qed.

Lemma is_digit_nonempty (s : string) : is_digit s -> s <> "".
Proof.
  unfold is_digit. intros Hin ->.
  repeat (apply elem_of_cons in Hin as [Hin|Hin]; [discriminate|]).
  inversion Hin.
Qed.

(** ** Bounds on the two passes *)

Lemma live_cons (u : string) (us : list string) :
  live (u :: us) = live us + (if bool_decide (u <> "") then 1 else 0).
Proof.
  unfold live. case_bool_decide.
  - rewrite filter_cons_True; [|assumption]. simpl length. lia.
  - rewrite filter_cons_False; [|tauto]. lia.
Qed.

Lemma live_nonneg (us : list string) : 0 <= live us.
Proof. unfold live. lia. Qed.

Lemma cows_pass_bounds (us : list string) :
  forall g : list string, 0 <= cows_pass us g <= live us.
Proof.
  induction us as [|u us IH]; intros g; [unfold live; simpl; lia|].
  cbn [cows_pass]. rewrite live_cons.
  destruct (bool_decide (u ≠ "")); simpl.
  - destruct (contains u g).
    + specialize (IH (mark_first u g)). lia.
    + specialize (IH g). lia.
  - specialize (IH g). lia.
Qed.

Lemma bulls_pass_bounds (n : nat) :
  forall (g u g1 u1 : list string) (k : Z),
    bulls_pass n g u = Some (k, g1, u1) ->
    0 <= k /\ k + live (take n u1) <= Z.of_nat n.
Proof.
  induction n as [|n IH]; intros g u g1 u1 k Hpass; simpl in Hpass.
  - injection Hpass as <- <- <-. rewrite take_0. unfold live. simpl. lia.
  - destruct g as [|a g']; [discriminate|].
    destruct u as [|b u']; [discriminate|].
    destruct (bulls_pass n g' u') as [[[k' g1'] u1']|] eqn:Hrec; [|discriminate].
    destruct (IH _ _ _ _ _ Hrec) as [Hk Hsum].
    destruct (bool_decide (a = b)); injection Hpass as <- <- <-;
      cbn [take]; rewrite live_cons.
    + rewrite bool_decide_eq_false_2 by (intros E; now apply E). lia.
    + destruct (bool_decide (b ≠ "")); lia.
Qed.

Lemma bulls_pass_same (n : nat) :
  forall s : list string,
    (n <= length s)%nat ->
    bulls_pass n s s
    = Some (Z.of_nat n, replicate n "" ++ drop n s, replicate n "" ++ drop n s).
Proof.
  induction n as [|n IH]; intros s Hn; [now rewrite drop_0|].
  destruct s as [|a s]; [simpl in Hn; lia|].
  cbn [bulls_pass]. rewrite IH by (simpl in Hn; lia).
  rewrite bool_decide_eq_true_2 by reflexivity.
  simpl replicate. simpl drop. do 3 f_equal. lia.
Qed.

Lemma cows_pass_markers (n : nat) (g : list string) :
  cows_pass (replicate n "") g = 0.
Proof.
  induction n as [|n IH]; [reflexivity|].
  cbn [replicate cows_pass].
  now rewrite bool_decide_eq_false_2 by (intros E; now apply E).
Qed.

(** ** Properties of [evaluate_guess] *)

(** Proves [Forall is_digit l] for a list [l] of digit literals. *)
Ltac all_digits :=
  cbn; unfold is_digit;
  repeat first [ apply List.Forall_nil | apply List.Forall_cons
               | apply list_elem_of_here | apply list_elem_of_further ].

(** C1. On two sequences of four digits [evaluate_guess] returns the pair
    (bulls, cows) that the two-pass reference algorithm of the specification
    computes: a bull for every position holding equal digits, then, scanning
    the guess in order, a cow for every unconsumed guess digit that still
    occurs among the unconsumed secret digits, consuming its first such
    occurrence. This holds whether or not the two arguments are the same
    list object. *)
Theorem evaluate_guess_refines_reference
    (generated_number user_number : loc) (h : heap) :
  length (h generated_number) = NUMBER_LENGTH ->
  length (h user_number) = NUMBER_LENGTH ->
  Forall is_digit (h generated_number) ->
  Forall is_digit (h user_number) ->
  fst (evaluate_guess generated_number user_number h)
  = Returns (Reference.evaluate (h generated_number) (h user_number)).
Proof.
  intros Hg Hu Dg Du.
  pose proof (bulls_pass_matches (h generated_number) (h user_number)) as Hpass.
  rewrite Hg in Hpass. specialize (Hpass (eq_sym Hu)).
  destruct (evaluate_guess_returns _ _ _ _ _ _ Hpass) as (h' & -> & _ & _).
  cbn [fst]. unfold Reference.evaluate. do 2 f_equal.
  rewrite take_ge.
  - apply cows_pass_reference.
    eapply Forall_impl; [exact Du | apply is_digit_nonempty].
  - unfold mask. rewrite length_zip_with. lia.
Qed.

Lemma evaluate_guess_refines_reference_witness :
  fst (evaluate_guess 0%nat 1%nat (two_lists (chars "1122") (chars "2211")))
  = Returns (Reference.evaluate (chars "1122") (chars "2211")).
Proof.
  apply (evaluate_guess_refines_reference 0%nat 1%nat
           (two_lists (chars "1122") (chars "2211")));
    [reflexivity | reflexivity | |]; all_digits.
Defined.

(** C2, as the code has it. The loops run over [range(NUMBER_LENGTH)], not
    over the length of the arguments: on two sequences of equal length at
    least four, [evaluate_guess] returns a pair (bulls, cows) of non-negative
    counts with bulls + cows <= 4 <= len(S); on sequences shorter than four
    it raises [IndexError] and returns no pair. *)
Theorem evaluate_guess_sum_bound
    (generated_number user_number : loc) (h : heap) :
  length (h user_number) = length (h generated_number) ->
  ((NUMBER_LENGTH <= length (h generated_number))%nat ->
   exists bulls cows,
     fst (evaluate_guess generated_number user_number h) = Returns (bulls, cows)
     /\ 0 <= bulls /\ 0 <= cows
     /\ bulls + cows <= Z.of_nat NUMBER_LENGTH
     /\ bulls + cows <= Z.of_nat (length (h generated_number)))
  /\ ((length (h generated_number) < NUMBER_LENGTH)%nat ->
      exists h',
        evaluate_guess generated_number user_number h = (Raises IndexError, h')).
Proof.
  intros Hlen. split; intros Hn.
  - destruct (bulls_pass_total NUMBER_LENGTH (h generated_number) (h user_number))
      as (k & g1 & u1 & Hpass); [lia ..|].
    destruct (evaluate_guess_returns _ _ _ _ _ _ Hpass) as (h' & -> & _ & _).
    apply bulls_pass_bounds in Hpass as [Hk Hsum].
    pose proof (cows_pass_bounds (take NUMBER_LENGTH u1) g1) as Hc.
    exists k, (cows_pass (take NUMBER_LENGTH u1) g1).
    cbn [fst]. repeat split; lia.
  - apply evaluate_guess_raises. now left.
Qed.

Lemma evaluate_guess_sum_bound_witness :
  exists bulls cows,
    fst (evaluate_guess 0%nat 1%nat (two_lists (chars "11223") (chars "22113")))
    = Returns (bulls, cows)
    /\ 0 <= bulls /\ 0 <= cows
    /\ bulls + cows <= Z.of_nat NUMBER_LENGTH
    /\ bulls + cows <= Z.of_nat (length (chars "11223")).
Proof.
  apply (proj1 (evaluate_guess_sum_bound 0%nat 1%nat
                  (two_lists (chars "11223") (chars "22113")) eq_refl)).
  vm_compute. lia.
Defined.

(** C2 as stated fails below length four: on the equal-length digit sequences
    "123" and "456" the call raises [IndexError], so no pair is returned. *)
Lemma evaluate_guess_short_returns_no_pair :
  fst (evaluate_guess 0%nat 1%nat (two_lists (chars "123") (chars "456")))
  = Raises IndexError
  /\ ~ (exists bulls cows,
          fst (evaluate_guess 0%nat 1%nat (two_lists (chars "123") (chars "456")))
          = Returns (bulls, cows)
          /\ bulls + cows <= Z.of_nat (length (chars "123"))).
Proof.
  split; [reflexivity|].
  intros (bulls & cows & E & _). discriminate E.
Qed.

(** C3, as the code has it. Called with a sequence and itself (the same list
    object, or two lists with equal contents), [evaluate_guess] returns
    (4, 0) whenever the sequence has at least four entries, which is
    (len(S), 0) exactly when len(S) = 4; on a shorter sequence it raises
    [IndexError]. *)
Theorem evaluate_guess_self
    (generated_number user_number : loc) (h : heap) :
  h user_number = h generated_number ->
  ((NUMBER_LENGTH <= length (h generated_number))%nat ->
   fst (evaluate_guess generated_number user_number h)
   = Returns (Z.of_nat NUMBER_LENGTH, 0))
  /\ ((length (h generated_number) < NUMBER_LENGTH)%nat ->
      exists h',
        evaluate_guess generated_number user_number h = (Raises IndexError, h')).
Proof.
  intros Hsame. split; intros Hn.
  - pose proof (bulls_pass_same NUMBER_LENGTH (h generated_number) Hn) as Hpass.
    rewrite <- Hsame in Hpass at 2.
    destruct (evaluate_guess_returns _ _ _ _ _ _ Hpass) as (h' & -> & _ & _).
    cbn [fst].
    rewrite take_app_length' by (symmetry; apply length_replicate).
    now rewrite cows_pass_markers.
  - apply evaluate_guess_raises. now left.
Qed.

Lemma evaluate_guess_self_witness :
  fst (evaluate_guess 0%nat 0%nat (two_lists (chars "1231") []))
  = Returns (Z.of_nat (length (chars "1231")), 0).
Proof.
  apply (proj1 (evaluate_guess_self 0%nat 0%nat
                  (two_lists (chars "1231") []) eq_refl)).
  vm_compute. lia.
Defined.

(** C3 as stated fails off length four: on the five digits "12345" the call
    returns (4, 0), not (5, 0). *)
Lemma evaluate_guess_self_five_digits :
  fst (evaluate_guess 0%nat 0%nat (two_lists (chars "12345") []))
  = Returns (4, 0)
  /\ fst (evaluate_guess 0%nat 0%nat (two_lists (chars "12345") []))
     <> Returns (Z.of_nat (length (chars "12345")), 0).
Proof. split; [reflexivity | discriminate]. Qed.

(** C4. The three test vectors of the specification:
    "1234" against "4321" gives (0, 4); "1122" against "2211" gives (0, 4);
    "1111" against "1222" gives (1, 0). *)
Theorem evaluate_guess_test_vectors :
  fst (evaluate_guess 0%nat 1%nat (two_lists (chars "1234") (chars "4321")))
  = Returns (0, 4)
  /\ fst (evaluate_guess 0%nat 1%nat (two_lists (chars "1122") (chars "2211")))
     = Returns (0, 4)
  /\ fst (evaluate_guess 0%nat 1%nat (two_lists (chars "1111") (chars "1222")))
     = Returns (1, 0).
Proof. repeat split; reflexivity. Qed.

(** The secret is read once, into a copy, and never written: every list
    object other than the guess holds after the call what it held before. *)
Lemma evaluate_guess_frame (generated_number user_number : loc) (h : heap) :
  (NUMBER_LENGTH <= length (h generated_number))%nat ->
  (NUMBER_LENGTH <= length (h user_number))%nat ->
  forall r, r <> user_number ->
    snd (evaluate_guess generated_number user_number h) r = h r.
Proof.
  intros Hg Hu r Hr.
  destruct (bulls_pass_total NUMBER_LENGTH _ _ Hg Hu) as (k & g1 & u1 & Hpass).
  destruct (evaluate_guess_returns _ _ _ _ _ _ Hpass) as (h' & -> & _ & Hframe).
  now apply Hframe.
Qed.

(** C5, where the code departs from it. The secret is copied before it is
    marked, the guess is not: after the call on secret "1234" and guess
    "1567" the guess list holds ["", "5", "6", "7"], while the secret list
    still holds "1234". *)
Theorem evaluate_guess_overwrites_guess :
  let h := two_lists (chars "1234") (chars "1567") in
  let h' := snd (evaluate_guess 0%nat 1%nat h) in
  fst (evaluate_guess 0%nat 1%nat h) = Returns (1, 0)
  /\ h' 0%nat = chars "1234"
  /\ h' 1%nat = [""; "5"; "6"; "7"]
  /\ h' 1%nat <> h 1%nat.
Proof. repeat split; [reflexivity .. | discriminate]. Qed.

(** ** Properties of [highscore] *)

Section HighscoreProperties.

Context (int_of_str : string -> option Z) (strip : string -> string).

Lemma read_scores_raises (ls : list string) (e : exn) :
  read_scores int_of_str strip ls = Raises e -> e = ValueError.
Proof.
  induction ls as [|line ls IH]; simpl; [discriminate|].
  case_bool_decide; [|exact IH].
  destruct (int_of_str (strip line)); [|congruence].
  destruct (read_scores int_of_str strip ls); [discriminate|].
  intros [= <-]. now apply IH.
Qed.

Lemma read_scores_corrupt (ls : list string) :
  Exists (corrupt_line int_of_str strip) ls ->
  read_scores int_of_str strip ls = Raises ValueError.
Proof.
  induction ls as [|line ls IH]; intros Hex; [inversion Hex|].
  simpl. inversion Hex as [? ? [Hne Hnone]|? ? Htl]; subst.
  - now rewrite bool_decide_eq_true_2, Hnone.
  - rewrite (IH Htl). case_bool_decide; [|reflexivity].
    now destruct (int_of_str (strip line)).
Qed.

Lemma highscore_run (score : Z) (w : world) (old : list Z) :
  prior_scores int_of_str strip (score_file w) = Some old ->
  highscore int_of_str strip score w
  = (Returns (take 10 (sorted (old ++ [score]))),
     after_highscore (take 10 (sorted (old ++ [score]))) w).
Proof.
  intros Hprior. destruct w as [st werr out]. simpl in Hprior.
  assert (Hload :
    try_except (load_scores int_of_str strip)
      (fun e => match e with
                | FileNotFoundError | ValueError => true
                | _ => false
                end)
      (fun _ => mret []) {| score_file := st; write_error := werr; stdout := out |}
    = (Returns old, {| score_file := st; write_error := werr; stdout := out |})).
  { unfold try_except, load_scores, open_read, lift_outcome, mbind, eff_bind,
      mret, eff_ret. simpl.
    destruct st as [| msg | | ls]; simpl in Hprior.
    - congruence.
    - discriminate.
    - congruence.
    - destruct (read_scores int_of_str strip ls) as [old'|e] eqn:E.
      + congruence.
      + rewrite (read_scores_raises _ _ E). congruence. }
  unfold highscore. rewrite (bind_returns _ _ _ _ _ Hload).
  unfold after_highscore, try_except, write_scores, print, mbind, eff_bind,
    mret, eff_ret. simpl.
  destruct werr; reflexivity.
Qed.

Lemma prior_scores_readable (st : file_state) :
  (forall msg, st <> Unreadable msg) -> exists old, prior_scores int_of_str strip st = Some old.
Proof.
  intros Hst. destruct st as [| msg | | ls]; simpl; eauto.
  - now destruct (Hst msg).
  - destruct (read_scores int_of_str strip ls); eauto.
Qed.

Lemma sorted_strongly (l : list Z) : StronglySorted Z.le (sorted l).
Proof. apply StronglySorted_merge_sort; apply _. Qed.

Lemma sorted_permutation (l : list Z) : sorted l ≡ₚ l.
Proof. apply merge_sort_Permutation. Qed.

(** C6. When the lines of the score file convert to the list [old],
    [highscore score] returns the first ten entries of the ascending
    arrangement of [old] and [score] together (so all of them when there are
    at most ten), and rewrites the file with them, one per line; with
    [old = [5, 9, 20]] and [score = 3] the result is [[3, 5, 9, 20]]. *)
Theorem highscore_keeps_smallest (score : Z) (w : world) (ls : list string)
    (old : list Z) :
  score_file w = Lines ls ->
  read_scores int_of_str strip ls = Returns old ->
  exists result rest,
    highscore int_of_str strip score w = (Returns result, after_highscore result w)
    /\ result ++ rest ≡ₚ old ++ [score]
    /\ StronglySorted Z.le (result ++ rest)
    /\ length result = Nat.min 10 (length old + 1)
    /\ (write_error w = None ->
        score_file (after_highscore result w)
        = Lines (map (fun s => str_of_int s ++ newline)%string result))
    /\ (old = [5; 9; 20] -> score = 3 -> result = [3; 5; 9; 20]).
Proof.
  intros Hfile Hread.
  exists (take 10 (sorted (old ++ [score]))), (drop 10 (sorted (old ++ [score]))).
  rewrite take_drop. split; [|split; [|split; [|split; [|split]]]].
  - apply highscore_run. now rewrite Hfile; simpl; rewrite Hread.
  - apply sorted_permutation.
  - apply sorted_strongly.
  - rewrite length_take, (Permutation_length (sorted_permutation _)), length_app.
    reflexivity.
  - intros Hw. unfold after_highscore. now rewrite Hw.
  - intros -> ->. reflexivity.
Qed.

(** C7. Whenever the score file can be opened or is missing, [highscore]
    returns a list in ascending order of at most ten entries, and the lines
    it writes to the file are these entries in the same order. *)
Theorem highscore_sorted_bounded (score : Z) (w : world) :
  (forall msg, score_file w <> Unreadable msg) ->
  exists result,
    highscore int_of_str strip score w = (Returns result, after_highscore result w)
    /\ StronglySorted Z.le result
    /\ (length result <= 10)%nat
    /\ (write_error w = None ->
        score_file (after_highscore result w)
        = Lines (map (fun s => str_of_int s ++ newline)%string result)).
Proof.
  intros Hst. destruct (prior_scores_readable _ Hst) as [old Hold].
  exists (take 10 (sorted (old ++ [score]))). split; [|split; [|split]].
  - now apply highscore_run.
  - pose proof (sorted_strongly (old ++ [score])) as Hs.
    rewrite <- (take_drop 10 (sorted (old ++ [score]))) in Hs.
    now apply StronglySorted_app_1_l in Hs.
  - rewrite length_take. lia.
  - intros Hw. unfold after_highscore. now rewrite Hw.
Qed.

(** C8. When the score file is missing, or holds a non-blank line that
    [int] rejects, [highscore score] returns [[score]] without raising, prints
    nothing about the read, and does what it does on an empty score file:
    the same result, the same output, and, when the file can be written, the
    same file, holding the single line of [score]. *)
Theorem highscore_missing_or_corrupt (score : Z) (w : world) :
  score_file w = Missing
  \/ (exists ls, score_file w = Lines ls /\ Exists (corrupt_line int_of_str strip) ls) ->
  let empty := {| score_file := Lines [];
                  write_error := write_error w;
                  stdout := stdout w |} in
  let run := highscore int_of_str strip score w in
  let run_empty := highscore int_of_str strip score empty in
  fst run = Returns [score]
  /\ fst run = fst run_empty
  /\ stdout (snd run) = stdout (snd run_empty)
  /\ (write_error w = None ->
      snd run = snd run_empty
      /\ score_file (snd run) = Lines [(str_of_int score ++ newline)%string]
      /\ stdout (snd run) = stdout w).
Proof.
  intros Hbad empty run run_empty.
  assert (Hprior : prior_scores int_of_str strip (score_file w) = Some []).
  { destruct Hbad as [-> | (ls & -> & Hex)]; [reflexivity|].
    simpl. now rewrite (read_scores_corrupt _ Hex). }
  assert (Hrun : run = (Returns [score], after_highscore [score] w))
    by (apply (highscore_run score w [] Hprior)).
  assert (Hempty : run_empty = (Returns [score], after_highscore [score] empty))
    by (apply (highscore_run score empty [] eq_refl)).
  rewrite Hrun, Hempty. unfold after_highscore, empty. simpl.
  destruct (write_error w) as [msg|]; simpl; repeat split; congruence.
Qed.

End HighscoreProperties.

Lemma highscore_keeps_smallest_witness :
  exists result rest,
    highscore ascii_int ascii_strip 3
      {| score_file := Lines ["5" ++ newline; "9" ++ newline; "20" ++ newline]%string;
         write_error := None;
         stdout := [] |}
    = (Returns result,
       after_highscore result
         {| score_file := Lines ["5" ++ newline; "9" ++ newline; "20" ++ newline]%string;
            write_error := None;
            stdout := [] |})
    /\ result ++ rest ≡ₚ [5; 9; 20] ++ [3]
    /\ StronglySorted Z.le (result ++ rest)
    /\ length result = Nat.min 10 (length [5; 9; 20] + 1)
    /\ (@None string = None ->
        score_file
          (after_highscore result
             {| score_file := Lines ["5" ++ newline; "9" ++ newline; "20" ++ newline]%string;
                write_error := None;
                stdout := [] |})
        = Lines (map (fun s => str_of_int s ++ newline)%string result))
    /\ ([5; 9; 20] = [5; 9; 20] -> 3 = 3 -> result = [3; 5; 9; 20]).
Proof.
  apply (highscore_keeps_smallest ascii_int ascii_strip 3
           {| score_file := Lines ["5" ++ newline; "9" ++ newline; "20" ++ newline]%string;
              write_error := None;
              stdout := [] |}
           ["5" ++ newline; "9" ++ newline; "20" ++ newline]%string
           [5; 9; 20]); reflexivity.
Defined.

Lemma highscore_sorted_bounded_witness :
  exists result,
    highscore ascii_int ascii_strip 25 eleven_scores
    = (Returns result, after_highscore result eleven_scores)
    /\ StronglySorted Z.le result
    /\ (length result <= 10)%nat
    /\ (write_error eleven_scores = None ->
        score_file (after_highscore result eleven_scores)
        = Lines (map (fun s => str_of_int s ++ newline)%string result)).
Proof.
  apply (highscore_sorted_bounded ascii_int ascii_strip 25 eleven_scores).
  intros msg. discriminate.
Defined.

Example highscore_eleven_scores :
  fst (highscore ascii_int ascii_strip 25 eleven_scores)
  = Returns [7; 8; 12; 19; 25; 33; 40; 54; 61; 76].
Proof. reflexivity. Qed.

Lemma highscore_missing_or_corrupt_witness :
  let empty := {| score_file := Lines [];
                  write_error := write_error corrupt_scores;
                  stdout := stdout corrupt_scores |} in
  let run := highscore ascii_int ascii_strip 42 corrupt_scores in
  let run_empty := highscore ascii_int ascii_strip 42 empty in
  fst run = Returns [42]
  /\ fst run = fst run_empty
  /\ stdout (snd run) = stdout (snd run_empty)
  /\ (write_error corrupt_scores = None ->
      snd run = snd run_empty
      /\ score_file (snd run) = Lines [(str_of_int 42 ++ newline)%string]
      /\ stdout (snd run) = stdout corrupt_scores).
Proof.
  apply (highscore_missing_or_corrupt ascii_int ascii_strip 42 corrupt_scores).
  right. exists ["5" ++ newline; "x9" ++ newline; "20" ++ newline]%string.
  split; [reflexivity|].
  apply List.Exists_cons_tl, List.Exists_cons_hd.
  split; [vm_compute; discriminate | reflexivity].
Defined.

Example highscore_missing_file :
  highscore ascii_int ascii_strip 42
    {| score_file := Missing; write_error := None; stdout := [] |}
  = (Returns [42],
     {| score_file := Lines [(String "4" (String "2" newline))];
        write_error := None;
        stdout := [] |}).
Proof. reflexivity. Qed.

(** When the file cannot be opened for reading at all, the exception is not
    one of the two the function catches, and it propagates. *)
Example highscore_unreadable_file :
  highscore ascii_int ascii_strip 42
    {| score_file := Unreadable "denied"; write_error := None; stdout := [] |}
  = (Raises (PermissionError "denied"),
     {| score_file := Unreadable "denied"; write_error := None; stdout := [] |}).
Proof. reflexivity. Qed.

(** ** Properties of [check_python_version] *)

Lemma tuple_lt_pair (a b c d : Z) :
  tuple_lt [a; b] [c; d] = true <-> a < c \/ (a = c /\ b < d).
Proof.
  simpl. destruct (Z.eqb_spec a c) as [->|Hne].
  - destruct (Z.eqb_spec b d) as [->|Hne'].
    + split; [discriminate | lia].
    + rewrite Z.ltb_lt. lia.
  - rewrite Z.ltb_lt. lia.
Qed.

(** C9. Against a required (major, minor) pair, [check_python_version]
    raises [RuntimeError] exactly when the interpreter's (major, minor) is
    strictly below it, and returns normally otherwise; in both cases it
    leaves the program's state as it was. In the script the check comes
    first: when the version is below (3, 10) the game is not run, otherwise
    the script is the game. *)
Theorem check_python_version_spec {St : Type} (current : version_info)
    (rmajor rminor : Z) (s : St) :
  ((exists msg,
      check_python_version current [rmajor; rminor] s
      = (Raises (RuntimeError msg), s))
   <-> version_below current rmajor rminor)
  /\ (check_python_version current [rmajor; rminor] s = (Returns tt, s)
      <-> ~ version_below current rmajor rminor)
  /\ (forall play_game : eff St unit,
        (version_below current 3 10 ->
         exists msg, main current play_game s = (Raises (RuntimeError msg), s))
        /\ (~ version_below current 3 10 ->
            main current play_game s = play_game s)).
Proof.
  assert (Hrun : forall a b,
    check_python_version current [a; b] s
    = if tuple_lt [major current; minor current] [a; b]
      then (Raises (RuntimeError
              ("Requires Python " ++ str_of_int a ++ "." ++ str_of_int b
               ++ "+, but found " ++ str_of_int (major current) ++ "."
               ++ str_of_int (minor current))%string), s)
      else (Returns tt, s)).
  { intros a b. unfold check_python_version.
    destruct (tuple_lt [major current; minor current] [a; b]); reflexivity. }
  assert (Hlt : forall a b,
    tuple_lt [major current; minor current] [a; b] = true
    <-> version_below current a b) by (intros; apply tuple_lt_pair).
  split; [|split].
  - rewrite Hrun, <- Hlt.
    destruct (tuple_lt _ _); split; eauto; try discriminate.
    intros [msg [=]].
  - rewrite Hrun, <- Hlt.
    destruct (tuple_lt _ _); split; try discriminate; congruence.
  - intros play_game. unfold main. split; intros Hv.
    + apply Hlt in Hv. eexists. apply bind_raises. rewrite Hrun, Hv. reflexivity.
    + erewrite bind_returns; [reflexivity|].
      rewrite Hrun. destruct (tuple_lt _ _) eqn:E; [|reflexivity].
      apply Hlt in E. contradiction.
Qed.

Example check_python_version_3_9 :
  check_python_version {| major := 3; minor := 9 |} [3; 10] tt
  = (Raises (RuntimeError "Requires Python 3.10+, but found 3.9"), tt).
Proof. reflexivity. Qed.

Example check_python_version_3_12 :
  check_python_version {| major := 3; minor := 12 |} [3; 10] tt
  = (Returns tt, tt).
Proof. reflexivity. Qed.

(** ** Properties of [calculate_time] *)

Lemma tenths_add_up_checked :
  forallb tenths_add_up (map Z.of_nat (seq 0 (Z.to_nat 6001))) = true.
Proof. vm_compute. reflexivity. Qed.

(** C10. The (minutes, seconds) pair is not kept in normal form: there are
    timestamps on which the seconds component is 60 and minutes * 60 + seconds
    differs from the returned total. With a start of 0.5000000000000001 and
    an end of 0.0 the function returns (-1, 60, -1), and -1 * 60 + 60 is 0,
    not -1. The reason is the one the specification gives: whenever the
    function returns, seconds is [round] of the remainder of the elapsed time
    by 60 (here 59.5, which rounds to 60), and the total is [round] of the
    elapsed time itself (here -0.5000000000000001, which rounds to -1). The
    elapsed time of 119.6 that the specification names has a seconds
    component of 60 too: the function returns (1, 60, 120) there. *)
Theorem calculate_time_not_normal_form :
  (exists start_time end_time minutes seconds total,
     calculate_time start_time end_time = Returns (minutes, seconds, total)
     /\ seconds = 60
     /\ minutes * 60 + seconds <> total)
  /\ calculate_time float_0_5000000000000001 float_0 = Returns (-1, 60, -1)
  /\ calculate_time float_0 float_119_6 = Returns (1, 60, 120)
  /\ (forall start_time end_time minutes seconds total,
        calculate_time start_time end_time = Returns (minutes, seconds, total) ->
        round (float_rem (float_sub end_time start_time) (float_of_int 60))
        = Returns seconds
        /\ round (float_sub end_time start_time) = Returns total).
Proof.
  assert (Hrun : calculate_time float_0_5000000000000001 float_0
                 = Returns (-1, 60, -1)) by (vm_compute; reflexivity).
  split; [|split; [exact Hrun | split; [vm_compute; reflexivity|]]].
  - exists float_0_5000000000000001, float_0, (-1), 60, (-1).
    split; [exact Hrun | split; [reflexivity | discriminate]].
  - intros start_time end_time minutes seconds total. unfold calculate_time.
    destruct (int_of_float _) as [m|]; [|discriminate].
    destruct (round (float_rem _ _)) as [sec|]; [|discriminate].
    destruct (round (float_sub _ _)) as [t|]; [|discriminate].
    cbn. intros [= <- <- <-]. split; reflexivity.
Qed.

(** Where the two add up. With an elapsed time of 119.6 the function returns
    (1, 60, 120), with 59.5 it returns (0, 60, 60), and with the timestamps
    1700000000.0 and 1700000119.6 it returns (1, 60, 120): on each of these
    minutes * 60 + seconds is the returned total. So it is on every elapsed
    time of a whole number of tenths of a second up to ten minutes, the
    seconds component being 60 exactly in the last half second of a
    minute. *)
Lemma calculate_time_seconds_reach_60 :
  calculate_time float_0 float_119_6 = Returns (1, 60, 120)
  /\ calculate_time float_0 float_59_5 = Returns (0, 60, 60)
  /\ calculate_time (float_of_int 1700000000)
       (float_add (float_of_int 1700000000) float_119_6)
     = Returns (1, 60, 120)
  /\ (exists start_time end_time minutes total,
        calculate_time start_time end_time = Returns (minutes, 60, total)
        /\ minutes * 60 + 60 = total)
  /\ (forall n, 0 <= n <= 6000 ->
      exists minutes seconds total,
        calculate_time float_0 (tenths n) = Returns (minutes, seconds, total)
        /\ minutes * 60 + seconds = total
        /\ (seconds = 60 <-> 595 <= n mod 600)).
Proof.
  split; [vm_compute; reflexivity|].
  split; [vm_compute; reflexivity|].
  split; [vm_compute; reflexivity|].
  split.
  { exists float_0, float_119_6, 1, 120. split; vm_compute; reflexivity. }
  intros n Hn.
  pose proof tenths_add_up_checked as Hall.
  rewrite forallb_forall in Hall.
  assert (Hin : In n (map Z.of_nat (seq 0 (Z.to_nat 6001)))).
  { apply in_map_iff. exists (Z.to_nat n). split; [lia|].
    apply in_seq. lia. }
  apply Hall in Hin. unfold tenths_add_up in Hin.
  destruct (calculate_time float_0 (tenths n)) as [[[m s] total]|e];
    [|discriminate].
  apply andb_prop in Hin as [Hsum Hsixty].
  apply Z.eqb_eq in Hsum. apply Bool.eqb_prop in Hsixty.
  exists m, s, total. split; [reflexivity|]. split; [exact Hsum|].
  rewrite <- Z.eqb_eq, Hsixty, Z.leb_le. reflexivity.
Qed.

(** With the elapsed time of 119.6 the seconds component is 60, and
    minutes * 60 + seconds = 1 * 60 + 60 is the returned total 120, not
    different from it: the two differ when the end is before the start, as in
    [calculate_time_not_normal_form], not here. *)
Lemma calculate_time_119_6_total_agrees :
  ~ (exists minutes seconds total,
       calculate_time float_0 float_119_6 = Returns (minutes, seconds, total)
       /\ seconds = 60
       /\ minutes * 60 + seconds <> total).
Proof.
  intros (minutes & seconds & total & Hrun & _ & Hne).
  vm_compute in Hrun. injection Hrun as <- <- <-. now apply Hne.
Qed.

(** Far beyond any playing time the quotient of [//] is itself rounded: an
    elapsed time of 2^60 + 768 seconds gives minutes and seconds that do not
    add up to the total; the seconds component is 4 there. *)
Example calculate_time_huge_elapsed :
  calculate_time float_0 (float_of_int (2 ^ 60 + 768))
  = Returns (19215358410114128, 4, 1152921504606847744).
Proof. vm_compute. reflexivity. Qed.

(** A timestamp that is not a number makes [int(minutes)] raise. *)
Example calculate_time_nan :
  calculate_time float_0 S754_nan = Raises ValueError.
Proof. vm_compute. reflexivity. Qed.

(** * Part II, continued: further properties *)

(** ** Further properties of [evaluate_guess] *)

Lemma writes_only_ret {A : Type} (u : loc) (a : A) : writes_only u (mret a).
Proof. intros h r _. reflexivity. Qed.

Lemma writes_only_raise {A : Type} (u : loc) (e : exn) :
  writes_only u (raise e : M A).
Proof. intros h r _. reflexivity. Qed.

Lemma writes_only_bind {A B : Type} (u : loc) (m : M A) (f : A -> M B) :
  writes_only u m -> (forall a, writes_only u (f a)) ->
  writes_only u (m ≫= f).
Proof.
  intros Hm Hf h r Hr. specialize (Hm h r Hr).
  unfold mbind, eff_bind. destruct (m h) as [[a|e] h1]; simpl in *.
  - rewrite (Hf a h1 r Hr). exact Hm.
  - exact Hm.
Qed.

Lemma writes_only_for_each {A L : Type} (u : loc) (xs : list A)
    (body : A -> L -> M L) :
  (forall x s, writes_only u (body x s)) ->
  forall s, writes_only u (for_each xs body s).
Proof.
  intros Hbody. induction xs as [|x xs IH]; intros s; simpl.
  - apply writes_only_ret.
  - apply writes_only_bind; [apply Hbody | exact IH].
Qed.

Lemma writes_only_getitem (u : loc) (l : list string) (i : nat) :
  writes_only u (getitem l i).
Proof.
  unfold getitem. destruct (l !! i);
    [apply writes_only_ret | apply writes_only_raise].
Qed.

Lemma writes_only_setitem (u : loc) (l : list string) (i : nat) (v : string) :
  writes_only u (setitem l i v).
Proof.
  unfold setitem. case_bool_decide;
    [apply writes_only_ret | apply writes_only_raise].
Qed.

Lemma writes_only_heap_getitem (u r : loc) (i : nat) :
  writes_only u (heap_getitem r i).
Proof.
  intros h r' _. unfold heap_getitem. now destruct (h r !! i).
Qed.

Lemma writes_only_heap_setitem (u : loc) (i : nat) (v : string) :
  writes_only u (heap_setitem u i v).
Proof.
  intros h r Hr. unfold heap_setitem. case_bool_decide; simpl; [|reflexivity].
  now apply heap_update_other.
Qed.

Lemma writes_only_list_index (u : loc) (l : list string) (x : string) :
  writes_only u (list_index l x).
Proof.
  unfold list_index. destruct (index_from l x 0);
    [apply writes_only_ret | apply writes_only_raise].
Qed.

Lemma writes_only_bulls_body (u : loc) (position : nat) (s : Z * list string) :
  writes_only u (bulls_body u position s).
Proof.
  destruct s as [bulls gcopy]. unfold bulls_body.
  apply writes_only_bind; [apply writes_only_getitem | intros g].
  apply writes_only_bind; [apply writes_only_heap_getitem | intros x].
  case_bool_decide; [|apply writes_only_ret].
  apply writes_only_bind; [apply writes_only_setitem | intros gcopy'].
  apply writes_only_bind; [apply writes_only_heap_setitem | intros _].
  apply writes_only_ret.
Qed.

Lemma writes_only_cows_body (u : loc) (position : nat) (s : Z * list string) :
  writes_only u (cows_body u position s).
Proof.
  destruct s as [cows gcopy]. unfold cows_body.
  apply writes_only_bind; [apply writes_only_heap_getitem | intros x].
  destruct (bool_decide (x ≠ "") && contains x gcopy); [|apply writes_only_ret].
  apply writes_only_bind; [apply writes_only_heap_getitem | intros x'].
  apply writes_only_bind; [apply writes_only_list_index | intros i].
  apply writes_only_bind; [apply writes_only_setitem | intros gcopy'].
  apply writes_only_ret.
Qed.

(** X4. Whatever its arguments hold, and whether it returns or raises,
    [evaluate_guess] writes no list object other than the guess: the secret,
    when it is another object, and every other list are left as they were. *)
Theorem evaluate_guess_writes_only_guess (generated_number user_number : loc) :
  writes_only user_number (evaluate_guess generated_number user_number).
Proof.
  unfold evaluate_guess.
  apply writes_only_bind; [intros h r _; reflexivity | intros gcopy].
  apply writes_only_bind.
  { apply writes_only_for_each. apply writes_only_bulls_body. }
  intros [bulls gcopy1].
  apply writes_only_bind.
  { apply writes_only_for_each. apply writes_only_cows_body. }
  intros [cows gcopy2]. apply writes_only_ret.
Qed.

Lemma mask_matches_guess (secret guess : list string) :
  mask guess (Reference.matches secret guess)
  = zip_with (fun s g => if bool_decide (s = g) then "" else g) secret guess.
Proof.
  revert guess. induction secret as [|s secret IH]; intros [|g guess];
    try reflexivity.
  change (Reference.matches (s :: secret) (g :: guess))
    with (bool_decide (s = g) :: Reference.matches secret guess).
  cbn [mask zip_with]. fold (mask guess (Reference.matches secret guess)).
  now rewrite IH.
Qed.

Lemma count_bulls_all_iff (secret guess : list string) :
  length secret = length guess ->
  0 <= Reference.count_bulls (Reference.matches secret guess)
       <= Z.of_nat (length secret)
  /\ (Reference.count_bulls (Reference.matches secret guess)
      = Z.of_nat (length secret) <-> secret = guess).
Proof.
  revert guess. induction secret as [|s secret IH]; intros [|g guess] Hlen;
    try discriminate.
  - split; [unfold Reference.count_bulls; simpl; lia | split; reflexivity].
  - injection Hlen as Hlen. destruct (IH guess Hlen) as [Hb Hiff].
    change (Reference.matches (s :: secret) (g :: guess))
      with (bool_decide (s = g) :: Reference.matches secret guess).
    rewrite count_bulls_cons. cbn [length].
    case_bool_decide as Hsg.
    + split; [lia|]. split.
      * intros E. f_equal; [exact Hsg|]. apply Hiff. lia.
      * intros [= _ E]. apply Hiff in E. lia.
    + split; [lia|]. split; [lia|]. intros [= E _]. contradiction.
Qed.

Lemma matches_cons (s g : string) (secret guess : list string) :
  Reference.matches (s :: secret) (g :: guess)
  = bool_decide (s = g) :: Reference.matches secret guess.
Proof. reflexivity. Qed.

Lemma matches_after_marking (secret guess : list string) :
  Forall (fun s => s <> "") secret ->
  Reference.count_bulls
    (Reference.matches secret (mask guess (Reference.matches secret guess)))
  = 0.
Proof.
  intros Hs. revert guess.
  induction Hs as [|s secret Hne Hs IH]; intros [|g guess]; try reflexivity.
  rewrite matches_cons.
  cbn [mask zip_with]. fold (mask guess (Reference.matches secret guess)).
  rewrite matches_cons, count_bulls_cons, (IH guess).
  destruct (bool_decide_reflect (s = g));
    rewrite bool_decide_eq_false_2 by congruence; reflexivity.
Qed.

Lemma mask_length (l : list string) (flags : list bool) :
  length l = length flags -> length (mask l flags) = length l.
Proof. intros E. unfold mask. rewrite length_zip_with. lia. Qed.

Lemma matches_length (secret guess : list string) :
  length secret = length guess ->
  length (Reference.matches secret guess) = length secret.
Proof. intros E. unfold Reference.matches. rewrite length_zip_with. lia. Qed.

(** What [evaluate_guess] returns and leaves behind on two lists of four
    entries. *)
Lemma evaluate_guess_four (generated_number user_number : loc) (h : heap) :
  length (h generated_number) = NUMBER_LENGTH ->
  length (h user_number) = NUMBER_LENGTH ->
  let marks := Reference.matches (h generated_number) (h user_number) in
  exists h',
    evaluate_guess generated_number user_number h
    = (Returns (Reference.count_bulls marks,
                cows_pass (mask (h user_number) marks)
                          (mask (h generated_number) marks)), h')
    /\ h' user_number = mask (h user_number) marks
    /\ (forall r, r <> user_number -> h' r = h r).
Proof.
  intros Hg Hu marks.
  pose proof (bulls_pass_matches (h generated_number) (h user_number)) as Hpass.
  rewrite Hg in Hpass. specialize (Hpass (eq_sym Hu)).
  destruct (evaluate_guess_returns _ _ _ _ _ _ Hpass) as (h' & Hrun & Hu' & Hfr).
  exists h'. split; [|auto].
  rewrite Hrun, take_ge; [reflexivity|].
  rewrite mask_length; [lia|]. rewrite matches_length; lia.
Qed.

(** X5. On two lists of four entries the call leaves in the guess list the
    marker [''] at every position where guess and secret agree, and the
    guess's own entry everywhere else. *)
Theorem evaluate_guess_marks_bulls (generated_number user_number : loc)
    (h : heap) :
  length (h generated_number) = NUMBER_LENGTH ->
  length (h user_number) = NUMBER_LENGTH ->
  snd (evaluate_guess generated_number user_number h) user_number
  = zip_with (fun s g => if bool_decide (s = g) then "" else g)
             (h generated_number) (h user_number).
Proof.
  intros Hg Hu.
  destruct (evaluate_guess_four _ _ h Hg Hu) as (h' & -> & Hu' & _).
  cbn [snd]. rewrite Hu'. apply mask_matches_guess.
Qed.

Lemma evaluate_guess_marks_bulls_witness :
  snd (evaluate_guess 0%nat 1%nat (two_lists (chars "1123") (chars "1311")))
      1%nat
  = zip_with (fun s g => if bool_decide (s = g) then "" else g)
             (chars "1123") (chars "1311").
Proof.
  apply (evaluate_guess_marks_bulls 0%nat 1%nat
           (two_lists (chars "1123") (chars "1311"))); reflexivity.
Defined.

(** X1. On two lists of four entries the number of bulls is four exactly
    when the guess is the secret. *)
Theorem evaluate_guess_wins_iff_equal (generated_number user_number : loc)
    (h : heap) :
  length (h generated_number) = NUMBER_LENGTH ->
  length (h user_number) = NUMBER_LENGTH ->
  exists bulls cows,
    fst (evaluate_guess generated_number user_number h) = Returns (bulls, cows)
    /\ (bulls = Z.of_nat NUMBER_LENGTH <-> h user_number = h generated_number).
Proof.
  intros Hg Hu.
  destruct (evaluate_guess_four _ _ h Hg Hu) as (h' & -> & _ & _).
  eexists _, _. split; [reflexivity|].
  destruct (count_bulls_all_iff (h generated_number) (h user_number))
    as [_ Hiff]; [lia|].
  rewrite <- Hg, Hiff. split; congruence.
Qed.

Lemma evaluate_guess_wins_iff_equal_witness :
  exists bulls cows,
    fst (evaluate_guess 0%nat 1%nat (two_lists (chars "7307") (chars "7307")))
    = Returns (bulls, cows)
    /\ (bulls = Z.of_nat NUMBER_LENGTH <-> chars "7307" = chars "7307").
Proof.
  apply (evaluate_guess_wins_iff_equal 0%nat 1%nat
           (two_lists (chars "7307") (chars "7307"))); reflexivity.
Defined.

(** X6. The guess list cannot be evaluated twice: after one call on a
    four-digit secret and a guess in another list object, a second call on
    the same two objects reports no bull, whatever the guess was. *)
Theorem evaluate_guess_again_no_bulls (generated_number user_number : loc)
    (h : heap) :
  generated_number <> user_number ->
  length (h generated_number) = NUMBER_LENGTH ->
  length (h user_number) = NUMBER_LENGTH ->
  Forall is_digit (h generated_number) ->
  exists cows,
    fst (evaluate_guess generated_number user_number
           (snd (evaluate_guess generated_number user_number h)))
    = Returns (0, cows).
Proof.
  intros Hne Hg Hu Dg.
  destruct (evaluate_guess_four _ _ h Hg Hu) as (h1 & -> & Hu1 & Hfr1).
  cbn [snd].
  assert (Hg1 : h1 generated_number = h generated_number) by now apply Hfr1.
  assert (Hlen1 : length (h1 user_number) = NUMBER_LENGTH).
  { rewrite Hu1, mask_length; [exact Hu|]. rewrite matches_length; lia. }
  destruct (evaluate_guess_four _ _ h1 (eq_trans (f_equal _ Hg1) Hg) Hlen1)
    as (h2 & -> & _ & _).
  cbn [fst]. rewrite Hg1, Hu1, matches_after_marking.
  - eexists. reflexivity.
  - eapply Forall_impl; [exact Dg | apply is_digit_nonempty].
Qed.

Lemma evaluate_guess_again_no_bulls_witness :
  exists cows,
    fst (evaluate_guess 0%nat 1%nat
           (snd (evaluate_guess 0%nat 1%nat
                   (two_lists (chars "1234") (chars "1243")))))
    = Returns (0, cows).
Proof.
  apply (evaluate_guess_again_no_bulls 0%nat 1%nat
           (two_lists (chars "1234") (chars "1243")));
    [discriminate | reflexivity | reflexivity | all_digits].
Defined.

(** X7. [evaluate_guess] raises exactly when one of its lists has fewer than
    four entries, and then it is [IndexError]; on longer lists it returns. In
    particular the [list.index] of the second loop never raises. *)
Theorem evaluate_guess_raises_iff_short (generated_number user_number : loc)
    (h : heap) :
  (fst (evaluate_guess generated_number user_number h) = Raises IndexError
   <-> (length (h generated_number) < NUMBER_LENGTH)%nat
       \/ (length (h user_number) < NUMBER_LENGTH)%nat)
  /\ (forall e,
        fst (evaluate_guess generated_number user_number h) = Raises e ->
        e = IndexError).
Proof.
  destruct (decide ((length (h generated_number) < NUMBER_LENGTH)%nat
                    \/ (length (h user_number) < NUMBER_LENGTH)%nat))
    as [Hshort|Hlong].
  - destruct (evaluate_guess_raises _ _ h Hshort) as [h' ->]. cbn [fst].
    split; [tauto | congruence].
  - destruct (bulls_pass_total NUMBER_LENGTH (h generated_number)
                (h user_number)) as (k & g1 & u1 & Hpass); [lia ..|].
    destruct (evaluate_guess_returns _ _ _ _ _ _ Hpass) as (h' & -> & _ & _).
    cbn [fst]. split; [split; [discriminate | tauto] | discriminate].
Qed.

Lemma unmarked_cons (x : string) (l : list string) :
  unmarked (x :: l)
  = if decide (x = "") then unmarked l else {[+ x +]} ⊎ unmarked l.
Proof.
  unfold unmarked. destruct (decide (x = "")) as [->|Hx].
  - rewrite filter_cons_False; [reflexivity | tauto].
  - rewrite filter_cons_True by assumption. apply list_to_set_disj_cons.
Qed.

Lemma unmarked_digits (l : list string) :
  Forall (fun s => s <> "") l -> unmarked l = list_to_set_disj l.
Proof.
  induction 1 as [|x l Hx Hl IH]; [reflexivity|].
  rewrite unmarked_cons, list_to_set_disj_cons, IH.
  destruct (decide (x = "")); [contradiction | reflexivity].
Qed.

Lemma contains_unmarked (x : string) (l : list string) :
  x <> "" -> contains x l = false -> x ∉ unmarked l.
Proof.
  intros Hx Hc. unfold contains in Hc. apply bool_decide_eq_false in Hc.
  unfold unmarked. rewrite elem_of_list_to_set_disj, list_elem_of_filter.
  tauto.
Qed.

Lemma unmarked_mark (u : string) :
  u <> "" ->
  forall (g : list string) (k j : nat),
    index_from g u k = Some j ->
    unmarked g = {[+ u +]} ⊎ unmarked (<[(j - k)%nat:=""]> g).
Proof.
  intros Hu. induction g as [|y g IH]; intros k j Hj; [discriminate|].
  simpl in Hj. case_bool_decide as Hy.
  - injection Hj as <-. subst y. rewrite Nat.sub_diag. simpl.
    rewrite !unmarked_cons.
    destruct (decide (u = "")); [contradiction|].
    destruct (decide ("" = "")); [reflexivity | congruence].
  - pose proof (index_from_bound _ _ _ _ Hj) as Hb.
    replace (j - k)%nat with (S (j - S k)) by lia. simpl.
    rewrite !unmarked_cons, (IH _ _ Hj).
    destruct (decide (y = "")); [reflexivity | multiset_solver].
Qed.

Lemma meet_with_absent (u : string) (X Y : gmultiset string) :
  u ∉ Y -> ({[+ u +]} ⊎ X) ∩ Y = X ∩ Y.
Proof.
  intros Hu. apply gmultiset_eq. intros x.
  rewrite !multiplicity_intersection, multiplicity_disj_union,
    multiplicity_singleton.
  rewrite not_elem_of_multiplicity in Hu.
  destruct (decide (x = u)) as [->|]; lia.
Qed.

(** The second loop counts the entries common to both marked lists, with
    their multiplicities. *)
Lemma cows_pass_multiset (us : list string) :
  forall g : list string,
    cows_pass us g = Z.of_nat (size (unmarked us ∩ unmarked g)).
Proof.
  induction us as [|u us IH]; intros g.
  - simpl. replace (unmarked [] ∩ unmarked g) with (∅ : gmultiset string).
    + reflexivity.
    + unfold unmarked at 1. simpl. multiset_solver.
  - cbn [cows_pass]. rewrite unmarked_cons.
    destruct (decide (u = "")) as [->|Hu].
    + rewrite bool_decide_eq_false_2 by tauto. simpl. apply IH.
    + rewrite bool_decide_eq_true_2 by assumption. simpl.
      destruct (contains u g) eqn:Hc.
      * destruct (contains_index_from g u 0 Hc) as [j Hj].
        unfold mark_first. rewrite Hj.
        rewrite (unmarked_mark u Hu g 0 j Hj), Nat.sub_0_r, IH.
        replace (({[+ u +]} ⊎ unmarked us)
                 ∩ ({[+ u +]} ⊎ unmarked (<[j:=""]> g)))
          with ({[+ u +]} ⊎ (unmarked us ∩ unmarked (<[j:=""]> g)))
          by multiset_solver.
        rewrite gmultiset_size_disj_union, gmultiset_size_singleton. lia.
      * rewrite meet_with_absent by now apply contains_unmarked.
        apply IH.
Qed.

Lemma bull_digits_split (secret guess : list string) :
  Forall (fun s => s <> "") secret ->
  Forall (fun s => s <> "") guess ->
  length secret = length guess ->
  list_to_set_disj secret
  = list_to_set_disj (bull_digits secret guess)
    ⊎ unmarked (mask secret (Reference.matches secret guess))
  /\ list_to_set_disj guess
     = list_to_set_disj (bull_digits secret guess)
       ⊎ unmarked (mask guess (Reference.matches secret guess))
  /\ Z.of_nat (length (bull_digits secret guess))
     = Reference.count_bulls (Reference.matches secret guess).
Proof.
  intros Hs. revert guess.
  induction Hs as [|s secret Hne Hs IH]; intros [|g guess] Hg Hlen;
    try discriminate.
  - repeat split; unfold unmarked; simpl; multiset_solver.
  - injection Hlen as Hlen. inversion Hg as [|? ? Hgne Hg']; subst.
    destruct (IH guess Hg' Hlen) as (E1 & E2 & E3).
    rewrite matches_cons, count_bulls_cons.
    cbn [mask zip_with bull_digits].
    fold (mask secret (Reference.matches secret guess)).
    fold (mask guess (Reference.matches secret guess)).
    rewrite !list_to_set_disj_cons, E1, E2.
    destruct (bool_decide_reflect (s = g)) as [->|Hsg].
    + rewrite !unmarked_cons, list_to_set_disj_cons.
      destruct (decide ("" = "")); [|congruence].
      cbn [length]. repeat split; [multiset_solver .. | lia].
    + rewrite !unmarked_cons.
      destruct (decide (s = "")); [contradiction|].
      destruct (decide (g = "")); [contradiction|].
      repeat split; [multiset_solver .. | lia].
Qed.

Lemma size_list_to_set_disj (l : list string) :
  size (list_to_set_disj l : gmultiset string) = length l.
Proof.
  induction l as [|x l IH]; [reflexivity|].
  rewrite list_to_set_disj_cons, gmultiset_size_disj_union,
    gmultiset_size_singleton, IH. reflexivity.
Qed.

(** X2. On two lists of four digits, bulls and cows together count the
    digits the secret and the guess have in common, each as often as it
    occurs in both: the total does not depend on the positions, nor on which
    occurrence the second loop consumes. *)
Theorem evaluate_guess_counts_common_digits
    (generated_number user_number : loc) (h : heap) :
  length (h generated_number) = NUMBER_LENGTH ->
  length (h user_number) = NUMBER_LENGTH ->
  Forall is_digit (h generated_number) ->
  Forall is_digit (h user_number) ->
  exists bulls cows,
    fst (evaluate_guess generated_number user_number h) = Returns (bulls, cows)
    /\ bulls + cows
       = Z.of_nat (size (list_to_set_disj (h generated_number)
                         ∩ list_to_set_disj (h user_number)
                         : gmultiset string)).
Proof.
  intros Hg Hu Dg Du.
  destruct (evaluate_guess_four _ _ h Hg Hu) as (h' & -> & _ & _).
  eexists _, _. split; [reflexivity|].
  assert (Ng : Forall (fun s => s <> "") (h generated_number))
    by (eapply Forall_impl; [exact Dg | apply is_digit_nonempty]).
  assert (Nu : Forall (fun s => s <> "") (h user_number))
    by (eapply Forall_impl; [exact Du | apply is_digit_nonempty]).
  destruct (bull_digits_split _ _ Ng Nu) as (E1 & E2 & E3); [lia|].
  rewrite cows_pass_multiset, <- E3, E1, E2.
  set (B := list_to_set_disj (bull_digits _ _) : gmultiset string).
  set (X := unmarked (mask (h generated_number) _)).
  set (Y := unmarked (mask (h user_number) _)).
  replace ((B ⊎ X) ∩ (B ⊎ Y)) with (B ⊎ (Y ∩ X)) by multiset_solver.
  rewrite gmultiset_size_disj_union. unfold B.
  rewrite size_list_to_set_disj. lia.
Qed.

Lemma evaluate_guess_counts_common_digits_witness :
  exists bulls cows,
    fst (evaluate_guess 0%nat 1%nat (two_lists (chars "1123") (chars "3111")))
    = Returns (bulls, cows)
    /\ bulls + cows
       = Z.of_nat (size (list_to_set_disj (chars "1123")
                         ∩ list_to_set_disj (chars "3111")
                         : gmultiset string)).
Proof.
  apply (evaluate_guess_counts_common_digits 0%nat 1%nat
           (two_lists (chars "1123") (chars "3111")));
    [reflexivity | reflexivity | all_digits | all_digits].
Defined.

Lemma matches_sym (secret guess : list string) :
  Reference.matches secret guess = Reference.matches guess secret.
Proof.
  revert guess. induction secret as [|s secret IH]; intros [|g guess];
    try reflexivity.
  rewrite !matches_cons, IH. f_equal.
  apply bool_decide_ext. split; congruence.
Qed.

(** X3. Secret and guess can be exchanged: on two lists of four entries the
    pair (bulls, cows) is the same when the guess is evaluated against the
    secret and when the secret is evaluated against the guess. *)
Theorem evaluate_guess_symmetric (g1 u1 g2 u2 : loc) (h1 h2 : heap) :
  h2 g2 = h1 u1 ->
  h2 u2 = h1 g1 ->
  length (h1 g1) = NUMBER_LENGTH ->
  length (h1 u1) = NUMBER_LENGTH ->
  fst (evaluate_guess g1 u1 h1) = fst (evaluate_guess g2 u2 h2).
Proof.
  intros Eg Eu Hg Hu.
  destruct (evaluate_guess_four g1 u1 h1 Hg Hu) as (h1' & -> & _ & _).
  destruct (evaluate_guess_four g2 u2 h2) as (h2' & -> & _ & _);
    [congruence ..|].
  cbn [fst]. rewrite Eg, Eu, (matches_sym (h1 u1) (h1 g1)).
  rewrite !cows_pass_multiset.
  set (X := unmarked (mask (h1 u1) _)). set (Y := unmarked (mask (h1 g1) _)).
  replace (Y ∩ X) with (X ∩ Y) by multiset_solver. reflexivity.
Qed.

Lemma evaluate_guess_symmetric_witness :
  fst (evaluate_guess 0%nat 1%nat (two_lists (chars "1123") (chars "3111")))
  = fst (evaluate_guess 0%nat 1%nat (two_lists (chars "3111") (chars "1123"))).
Proof.
  apply (evaluate_guess_symmetric 0%nat 1%nat 0%nat 1%nat
           (two_lists (chars "1123") (chars "3111"))
           (two_lists (chars "3111") (chars "1123"))); reflexivity.
Defined.

(** ** Running the program *)

Lemma prog_bind_returns {A B : Type} (m : prog A) (f : A -> prog B)
    (s s' : session) (a : A) :
  m s = Some (Returns a, s') -> (m ≫= f) s = f a s'.
Proof. intros E. unfold mbind, prog_bind. now rewrite E. Qed.

Lemma prog_bind_raises {A B : Type} (m : prog A) (f : A -> prog B)
    (s s' : session) (e : exn) :
  m s = Some (Raises e, s') -> (m ≫= f) s = Some (Raises e, s').
Proof. intros E. unfold mbind, prog_bind. now rewrite E. Qed.

Lemma prog_bind_blocks {A B : Type} (m : prog A) (f : A -> prog B)
    (s : session) :
  m s = None -> (m ≫= f) s = None.
Proof. intros E. unfold mbind, prog_bind. now rewrite E. Qed.

(** A loop whose body reads a line in every round has made all the rounds it
    can make when it has made one round per typed line: more rounds than
    that change nothing. *)
Lemma rounds_enough {L A : Type} (body : L -> prog (L + A)) :
  consumes body ->
  forall (n m : nat) (l : L) (s : session),
    (length (typed s) < n)%nat -> (length (typed s) < m)%nat ->
    rounds n body l s = rounds m body l s.
Proof.
  intros Hc. induction n as [|n IH]; intros m l s Hn Hm; [lia|].
  destruct m as [|m]; [lia|]. cbn [rounds]. unfold mbind, prog_bind.
  destruct (body l s) as [[[[l'|a] | e] s']|] eqn:E; try reflexivity.
  apply Hc in E. apply IH; lia.
Qed.

Lemma while_true_rounds {L A : Type} (body : L -> prog (L + A)) (n : nat)
    (l : L) (s : session) :
  consumes body -> (length (typed s) < n)%nat ->
  while_true body l s = rounds n body l s.
Proof. intros Hc Hn. unfold while_true. apply rounds_enough; [exact Hc | lia..]. Qed.

(** One round more in front of a loop. *)
Lemma while_true_again {L A : Type} (body : L -> prog (L + A)) (l l' : L)
    (s s' : session) :
  consumes body ->
  body l s = Some (Returns (inl l'), s') ->
  while_true body l s = while_true body l' s'.
Proof.
  intros Hc E. unfold while_true at 1. cbn [rounds].
  rewrite (prog_bind_returns _ _ _ _ _ E).
  symmetry. apply while_true_rounds; [exact Hc|]. now apply Hc in E.
Qed.

Lemma while_true_done {L A : Type} (body : L -> prog (L + A)) (l : L) (a : A)
    (s s' : session) :
  body l s = Some (Returns (inr a), s') ->
  while_true body l s = Some (Returns a, s').
Proof.
  intros E. unfold while_true. cbn [rounds].
  now rewrite (prog_bind_returns _ _ _ _ _ E).
Qed.

Lemma while_true_raises {L A : Type} (body : L -> prog (L + A)) (l : L)
    (e : exn) (s s' : session) :
  body l s = Some (Raises e, s') ->
  while_true body l s = Some (Raises e, s').
Proof.
  intros E. unfold while_true. cbn [rounds].
  now rewrite (prog_bind_raises _ _ _ _ _ E).
Qed.

Lemma while_true_blocks {L A : Type} (body : L -> prog (L + A)) (l : L)
    (s : session) :
  body l s = None -> while_true body l s = None.
Proof.
  intros E. unfold while_true. cbn [rounds].
  now rewrite (prog_bind_blocks _ _ _ E).
Qed.

Lemma reads_reads (out1 rest1 out2 rest2 : list string) (s : session) :
  reads out2 rest2 (reads out1 rest1 s) = reads (out1 ++ out2) rest2 s.
Proof. unfold reads, with_output. cbn. now rewrite <- app_assoc. Qed.

Lemma input_reads (prompt line : string) (rest : list string) (s : session) :
  typed s = line :: rest ->
  input prompt s = Some (Returns line, reads [prompt] rest s).
Proof. intros E. unfold input. now rewrite E. Qed.

Lemma input_blocks (prompt : string) (s : session) :
  typed s = [] -> input prompt s = None.
Proof. intros E. unfold input. now rewrite E. Qed.

Lemma say_reads (text : string) (out rest : list string) (s : session) :
  say text (reads out rest s)
  = Some (Returns tt, reads (out ++ [text]) rest s).
Proof.
  unfold say, on_world, print, reads, with_output. cbn.
  now rewrite <- app_assoc.
Qed.

(** The characters of a string, put together again, are the string. *)
Lemma code_points_concat (s : string) :
  fold_right String.append EmptyString (code_points s) = s.
Proof.
  induction s as [|c s IH]; [reflexivity|].
  cbn [code_points]. destruct s as [|d s']; [reflexivity|].
  cbv zeta. destruct (continuation_byte d).
  - destruct (code_points (String d s')) as [|cp cps]; [discriminate IH|].
    cbn [fold_right] in *.
    change (String c cp ++ fold_right String.append "" cps)%string
      with (String c (cp ++ fold_right String.append "" cps)).
    now rewrite IH.
  - cbn [fold_right].
    change (String c "" ++ fold_right String.append ""
                             (code_points (String d s')))%string
      with (String c (fold_right String.append "" (code_points (String d s')))).
    now rewrite IH.
Qed.

Lemma code_points_inj (a b : string) : code_points a = code_points b -> a = b.
Proof.
  intros E. rewrite <- (code_points_concat a), <- (code_points_concat b).
  now rewrite E.
Qed.

(** *** Loops that ask until a line is accepted *)

Section PromptLoop.

Context {A : Type} (body : unit -> prog (unit + A)) (accepts : string -> bool)
        (result : string -> A) (prompt : string) (complain : string -> string).

Hypothesis body_blocks : forall s, typed s = [] -> body tt s = None.

Hypothesis body_accepts : forall s line rest,
  typed s = line :: rest -> accepts line = true ->
  body tt s = Some (Returns (inr (result line)), reads [prompt] rest s).

Hypothesis body_rejects : forall s line rest,
  typed s = line :: rest -> accepts line = false ->
  body tt s = Some (Returns (inl tt), reads [prompt; complain line] rest s).

Lemma prompt_loop_consumes : consumes body.
Proof.
  intros [] s r s' E. destruct (typed s) as [|line rest] eqn:Et.
  - now rewrite body_blocks in E.
  - destruct (accepts line) eqn:Ha.
    + rewrite (body_accepts _ _ _ Et Ha) in E. injection E as _ <-. cbn. lia.
    + rewrite (body_rejects _ _ _ Et Ha) in E. injection E as _ <-. cbn. lia.
Qed.

Lemma prompt_loop_returns (rejected : list string) :
  forall (s : session) (line : string) (rest : list string),
    typed s = rejected ++ line :: rest ->
    Forall (fun l => accepts l = false) rejected ->
    accepts line = true ->
    while_true body tt s
    = Some (Returns (result line),
            reads (flat_map (fun l => [prompt; complain l]) rejected ++ [prompt])
                  rest s).
Proof.
  induction rejected as [|l rejected IH]; intros s line rest Et Hr Ha.
  - apply while_true_done. now apply body_accepts.
  - inversion Hr as [|? ? Hl Hr']; subst.
    rewrite (while_true_again _ _ _ _ _ prompt_loop_consumes
               (body_rejects _ _ _ Et Hl)).
    rewrite (IH (reads _ (rejected ++ line :: rest) s) line rest eq_refl Hr' Ha),
      reads_reads. reflexivity.
Qed.

Lemma prompt_loop_blocks (s : session) :
  Forall (fun l => accepts l = false) (typed s) ->
  while_true body tt s = None.
Proof.
  remember (typed s) as lines eqn:Et. symmetry in Et. revert s Et.
  induction lines as [|l lines IH]; intros s Et Hr.
  - apply while_true_blocks. now apply body_blocks.
  - inversion Hr as [|? ? Hl Hr']; subst.
    rewrite (while_true_again _ _ _ _ _ prompt_loop_consumes
               (body_rejects _ _ _ Et Hl)).
    now apply (IH (reads _ lines s)).
Qed.

End PromptLoop.

(** Splitting the typed lines at the first one that is accepted. *)
Lemma first_accepted (accepts : string -> bool) (lines : list string) :
  Forall (fun l => accepts l = false) lines
  \/ exists rejected line rest,
       lines = rejected ++ line :: rest
       /\ Forall (fun l => accepts l = false) rejected
       /\ accepts line = true.
Proof.
  induction lines as [|l lines IH]; [left; constructor|].
  destruct (accepts l) eqn:Hl.
  - right. exists [], l, lines. repeat split; [constructor | exact Hl].
  - destruct IH as [IH | (rejected & line & rest & -> & Hr & Ha)].
    + left. now constructor.
    + right. exists (l :: rejected), line, rest.
      repeat split; [now constructor | exact Ha].
Qed.

Section GameProperties.

Context (isdigit : string -> bool) (strip lower : string -> string)
        (int_of_str : string -> option Z).

(** *** [get_user_input] *)

Lemma get_user_input_round_blocks (s : session) :
  typed s = [] -> get_user_input_round isdigit strip tt s = None.
Proof.
  intros E. unfold get_user_input_round.
  apply prog_bind_blocks. now apply input_blocks.
Qed.

Lemma get_user_input_round_accepts (s : session) (line : string)
    (rest : list string) :
  typed s = line :: rest ->
  acceptable isdigit strip line = true ->
  get_user_input_round isdigit strip tt s
  = Some (Returns (inr (strip line)), reads [spaces 38] rest s).
Proof.
  intros E Ha. unfold acceptable in Ha.
  apply andb_prop in Ha as [Ha H0]. apply andb_prop in Ha as [Hd Hl].
  unfold get_user_input_round.
  rewrite (prog_bind_returns _ _ _ _ _ (input_reads _ _ _ _ E)).
  rewrite Hd, Hl. cbn [negb]. apply negb_true_iff in H0. rewrite H0.
  reflexivity.
Qed.

Lemma get_user_input_round_rejects (s : session) (line : string)
    (rest : list string) :
  typed s = line :: rest ->
  acceptable isdigit strip line = false ->
  get_user_input_round isdigit strip tt s
  = Some (Returns (inl tt),
          reads [spaces 38; complaint isdigit strip line] rest s).
Proof.
  intros E Ha. unfold acceptable in Ha. unfold complaint.
  unfold get_user_input_round.
  rewrite (prog_bind_returns _ _ _ _ _ (input_reads _ _ _ _ E)).
  destruct (isdigit (strip line)); cbn [negb andb] in *;
    [|now rewrite (prog_bind_returns _ _ _ _ _ (say_reads _ _ _ _))].
  destruct (length (code_points (strip line)) =? NUMBER_LENGTH)%nat;
    cbn [negb andb] in *;
    [|now rewrite (prog_bind_returns _ _ _ _ _ (say_reads _ _ _ _))].
  apply negb_false_iff in Ha. rewrite Ha.
  now rewrite (prog_bind_returns _ _ _ _ _ (say_reads _ _ _ _)).
Qed.

Lemma get_user_input_loop (rejected : list string) (s : session)
    (line : string) (rest : list string) :
  typed s = rejected ++ line :: rest ->
  Forall (fun l => acceptable isdigit strip l = false) rejected ->
  acceptable isdigit strip line = true ->
  while_true (get_user_input_round isdigit strip) tt s
  = Some (Returns (strip line),
          reads (flat_map (fun l => [spaces 38; complaint isdigit strip l])
                          rejected ++ [spaces 38]) rest s).
Proof.
  apply (prompt_loop_returns _ (acceptable isdigit strip) strip (spaces 38)
           (complaint isdigit strip));
    [ exact get_user_input_round_blocks
    | exact get_user_input_round_accepts
    | exact get_user_input_round_rejects ].
Qed.

Lemma get_user_input_loop_blocks (s : session) :
  Forall (fun l => acceptable isdigit strip l = false) (typed s) ->
  while_true (get_user_input_round isdigit strip) tt s = None.
Proof.
  apply (prompt_loop_blocks _ (acceptable isdigit strip) strip (spaces 38)
           (complaint isdigit strip));
    [ exact get_user_input_round_blocks
    | exact get_user_input_round_accepts
    | exact get_user_input_round_rejects ].
Qed.

Lemma get_user_input_run (s : session) (rejected : list string) (line : string)
    (rest : list string) :
  typed s = rejected ++ line :: rest ->
  Forall (fun l => acceptable isdigit strip l = false) rejected ->
  acceptable isdigit strip line = true ->
  get_user_input isdigit strip s
  = Some (Returns (allocated s),
          {| objects :=
               heap_update (objects s) (allocated s) (code_points (strip line));
             allocated := S (allocated s);
             outside :=
               with_output
                 (flat_map (fun l => [spaces 38; complaint isdigit strip l])
                           rejected ++ [spaces 38]) (outside s);
             typed := rest; random_source := random_source s;
             draws := draws s; clock := clock s; ticks := ticks s |}).
Proof.
  intros Et Hr Ha. unfold get_user_input.
  rewrite (prog_bind_returns _ _ _ _ _ (get_user_input_loop _ _ _ _ Et Hr Ha)).
  reflexivity.
Qed.

Lemma acceptable_length (line : string) :
  acceptable isdigit strip line = true ->
  length (code_points (strip line)) = NUMBER_LENGTH.
Proof.
  unfold acceptable. intros Ha.
  apply andb_prop in Ha as [Ha _]. apply andb_prop in Ha as [_ Hl].
  now apply Nat.eqb_eq.
Qed.

Lemma get_user_input_blocks (s : session) :
  Forall (fun l => acceptable isdigit strip l = false) (typed s) ->
  get_user_input isdigit strip s = None.
Proof.
  intros Hr. unfold get_user_input. apply prog_bind_blocks.
  now apply get_user_input_loop_blocks.
Qed.

(** *** [ask_to_continue] *)

Lemma ask_to_continue_round_blocks (s : session) :
  typed s = [] -> ask_to_continue_round strip lower tt s = None.
Proof.
  intros E. unfold ask_to_continue_round.
  apply prog_bind_blocks. now apply input_blocks.
Qed.

Lemma ask_to_continue_round_accepts (s : session) (line : string)
    (rest : list string) :
  typed s = line :: rest ->
  answers strip lower line = true ->
  ask_to_continue_round strip lower tt s
  = Some (Returns (inr (String.eqb (lower (strip line)) "y")),
          reads [newline ++ center "Play again? (y/n):" CENTER_WIDTH
                 ++ newline ++ spaces 38]%string rest s).
Proof.
  intros E Ha. unfold answers in Ha. unfold ask_to_continue_round.
  rewrite (prog_bind_returns _ _ _ _ _ (input_reads _ _ _ _ E)).
  now rewrite Ha.
Qed.

Lemma ask_to_continue_round_rejects (s : session) (line : string)
    (rest : list string) :
  typed s = line :: rest ->
  answers strip lower line = false ->
  ask_to_continue_round strip lower tt s
  = Some (Returns (inl tt),
          reads [newline ++ center "Play again? (y/n):" CENTER_WIDTH
                 ++ newline ++ spaces 38;
                 newline ++ center "Please enter y or n:" CENTER_WIDTH]%string
                rest s).
Proof.
  intros E Ha. unfold answers in Ha. unfold ask_to_continue_round.
  rewrite (prog_bind_returns _ _ _ _ _ (input_reads _ _ _ _ E)).
  rewrite Ha.
  now rewrite (prog_bind_returns _ _ _ _ _ (say_reads _ _ _ _)).
Qed.

Lemma ask_to_continue_run (s : session) (rejected : list string) (line : string)
    (rest : list string) :
  typed s = rejected ++ line :: rest ->
  Forall (fun l => answers strip lower l = false) rejected ->
  answers strip lower line = true ->
  ask_to_continue strip lower s
  = Some (Returns (String.eqb (lower (strip line)) "y"),
          reads (flat_map
                   (fun _ =>
                      [newline ++ center "Play again? (y/n):" CENTER_WIDTH
                       ++ newline ++ spaces 38;
                       newline ++ center "Please enter y or n:" CENTER_WIDTH]%string)
                   rejected
                 ++ [newline ++ center "Play again? (y/n):" CENTER_WIDTH
                     ++ newline ++ spaces 38]%string) rest s).
Proof.
  apply (prompt_loop_returns _ (answers strip lower)
           (fun line => String.eqb (lower (strip line)) "y")
           (newline ++ center "Play again? (y/n):" CENTER_WIDTH
            ++ newline ++ spaces 38)%string
           (fun _ => (newline ++ center "Please enter y or n:" CENTER_WIDTH)%string));
    [ exact ask_to_continue_round_blocks
    | exact ask_to_continue_round_accepts
    | exact ask_to_continue_round_rejects ].
Qed.

Lemma ask_to_continue_blocks (s : session) :
  Forall (fun l => answers strip lower l = false) (typed s) ->
  ask_to_continue strip lower s = None.
Proof.
  apply (prompt_loop_blocks _ (answers strip lower)
           (fun line => String.eqb (lower (strip line)) "y")
           (newline ++ center "Play again? (y/n):" CENTER_WIDTH
            ++ newline ++ spaces 38)%string
           (fun _ => (newline ++ center "Please enter y or n:" CENTER_WIDTH)%string));
    [ exact ask_to_continue_round_blocks
    | exact ask_to_continue_round_accepts
    | exact ask_to_continue_round_rejects ].
Qed.

End GameProperties.
Section DialogueProperties.

Context (isdigit : string -> bool) (strip lower : string -> string).

(** X8. [get_user_input] returns the first typed line that passes its three
    tests, as a new list of the four characters of the stripped line;
    characters are counted as Python counts them, not bytes. Before that it
    has written the prompt once for every line it read and one complaint for
    every line it turned down; the lines typed after the accepted one are
    left for later, and no existing list, nor the score file, the random
    source or the clock, is touched. *)
Theorem get_user_input_returns_first_accepted (s : session)
    (rejected : list string) (line : string) (rest : list string) :
  typed s = rejected ++ line :: rest ->
  Forall (fun l => acceptable isdigit strip l = false) rejected ->
  acceptable isdigit strip line = true ->
  get_user_input isdigit strip s
  = Some (Returns (allocated s),
          {| objects :=
               heap_update (objects s) (allocated s) (code_points (strip line));
             allocated := S (allocated s);
             outside :=
               {| score_file := score_file (outside s);
                  write_error := write_error (outside s);
                  stdout :=
                    stdout (outside s)
                    ++ flat_map (fun l => [spaces 38; complaint isdigit strip l])
                                rejected
                    ++ [spaces 38] |};
             typed := rest; random_source := random_source s;
             draws := draws s; clock := clock s; ticks := ticks s |})
  /\ length (code_points (strip line)) = NUMBER_LENGTH.
Proof.
  intros Et Hr Ha. split.
  - now apply get_user_input_run.
  - now apply (acceptable_length isdigit).
Qed.

(** X9. [get_user_input] raises no exception of its own. It is stopped in
    [input], and so does not return, exactly when none of the lines typed
    passes the three tests. *)
Theorem get_user_input_waits_iff_none_accepted (s : session) :
  (get_user_input isdigit strip s = None
   <-> Forall (fun l => acceptable isdigit strip l = false) (typed s))
  /\ (forall e s', get_user_input isdigit strip s <> Some (Raises e, s')).
Proof.
  destruct (first_accepted (acceptable isdigit strip) (typed s))
    as [Hall | (rejected & line & rest & Et & Hr & Ha)].
  - rewrite (get_user_input_blocks _ _ _ Hall). split; [tauto | discriminate].
  - rewrite (get_user_input_run _ _ _ _ _ _ Et Hr Ha). split; [|discriminate].
    split; [discriminate|]. rewrite Et. intros Hall.
    apply Forall_app in Hall as [_ Hall].
    inversion Hall as [|? ? Hl _]; subst. congruence.
Qed.

(** X10. [ask_to_continue] returns the answer of the first typed line that,
    stripped and lowered, is ['y'] or ['n']: [True] for ['y'], [False] for
    ['n']. It asks the question once for every line it read and asks again
    after every line that is no answer; it changes nothing else. *)
Theorem ask_to_continue_returns_first_answer (s : session)
    (rejected : list string) (line : string) (rest : list string) :
  typed s = rejected ++ line :: rest ->
  Forall (fun l => answers strip lower l = false) rejected ->
  answers strip lower line = true ->
  let question :=
    (newline ++ center "Play again? (y/n):" CENTER_WIDTH
     ++ newline ++ spaces 38)%string in
  let again := (newline ++ center "Please enter y or n:" CENTER_WIDTH)%string in
  ask_to_continue strip lower s
  = Some (Returns (String.eqb (lower (strip line)) "y"),
          {| objects := objects s; allocated := allocated s;
             outside :=
               {| score_file := score_file (outside s);
                  write_error := write_error (outside s);
                  stdout :=
                    stdout (outside s)
                    ++ flat_map (fun _ => [question; again]) rejected
                    ++ [question] |};
             typed := rest; random_source := random_source s;
             draws := draws s; clock := clock s; ticks := ticks s |})
  /\ (String.eqb (lower (strip line)) "y" = false -> lower (strip line) = "n").
Proof.
  intros Et Hr Ha question again. split.
  - now apply ask_to_continue_run.
  - intros Hy. unfold answers in Ha. rewrite Hy in Ha.
    now apply String.eqb_eq in Ha.
Qed.

(** X11. [ask_to_continue] raises no exception of its own. It is stopped in
    [input], and so does not return, exactly when no typed line is an
    answer. *)
Theorem ask_to_continue_waits_iff_no_answer (s : session) :
  (ask_to_continue strip lower s = None
   <-> Forall (fun l => answers strip lower l = false) (typed s))
  /\ (forall e s', ask_to_continue strip lower s <> Some (Raises e, s')).
Proof.
  destruct (first_accepted (answers strip lower) (typed s))
    as [Hall | (rejected & line & rest & Et & Hr & Ha)].
  - rewrite (ask_to_continue_blocks _ _ _ Hall). split; [tauto | discriminate].
  - rewrite (ask_to_continue_run _ _ _ _ _ _ Et Hr Ha). split; [|discriminate].
    split; [discriminate|]. rewrite Et. intros Hall.
    apply Forall_app in Hall as [_ Hall].
    inversion Hall as [|? ? Hl _]; subst. congruence.
Qed.

End DialogueProperties.

Lemma get_user_input_returns_first_accepted_witness :
  let s := console ["12a4"; " 0123 "; "123"; ""; " 4271" ++ newline; "n"]%string
                   (fun _ => 0) (fun _ => float_0) in
  get_user_input ascii_isdigit ascii_strip s
  = Some (Returns (allocated s),
          {| objects :=
               heap_update (objects s) (allocated s)
                 (code_points (ascii_strip (" 4271" ++ newline)));
             allocated := S (allocated s);
             outside :=
               {| score_file := score_file (outside s);
                  write_error := write_error (outside s);
                  stdout :=
                    stdout (outside s)
                    ++ flat_map
                         (fun l => [spaces 38; complaint ascii_isdigit ascii_strip l])
                         ["12a4"; " 0123 "; "123"; ""]
                    ++ [spaces 38] |};
             typed := ["n"]; random_source := random_source s;
             draws := draws s; clock := clock s; ticks := ticks s |})
  /\ length (code_points (ascii_strip (" 4271" ++ newline))) = NUMBER_LENGTH.
Proof.
  intros s.
  apply (get_user_input_returns_first_accepted ascii_isdigit ascii_strip s
           ["12a4"; " 0123 "; "123"; ""] (" 4271" ++ newline) ["n"]).
  - reflexivity.
  - repeat constructor.
  - reflexivity.
Defined.

Lemma ask_to_continue_returns_first_answer_witness :
  let s := console ["maybe"; ""; " N "; "y"] (fun _ => 0) (fun _ => float_0) in
  let question :=
    (newline ++ center "Play again? (y/n):" CENTER_WIDTH
     ++ newline ++ spaces 38)%string in
  let again := (newline ++ center "Please enter y or n:" CENTER_WIDTH)%string in
  ask_to_continue ascii_strip ascii_lower s
  = Some (Returns (String.eqb (ascii_lower (ascii_strip " N ")) "y"),
          {| objects := objects s; allocated := allocated s;
             outside :=
               {| score_file := score_file (outside s);
                  write_error := write_error (outside s);
                  stdout :=
                    stdout (outside s)
                    ++ flat_map (fun _ => [question; again]) ["maybe"; ""]
                    ++ [question] |};
             typed := ["y"]; random_source := random_source s;
             draws := draws s; clock := clock s; ticks := ticks s |})
  /\ (String.eqb (ascii_lower (ascii_strip " N ")) "y" = false
      -> ascii_lower (ascii_strip " N ") = "n").
Proof.
  intros s.
  apply (ask_to_continue_returns_first_answer ascii_strip ascii_lower s
           ["maybe"; ""] " N " ["y"]).
  - reflexivity.
  - repeat constructor.
  - reflexivity.
Defined.

(** Characters, not bytes: a line of four fullwidth digits, twelve bytes
    long, passes the tests when [str.isdigit] accepts it, as Python's does,
    and gives a list of four entries; a line of two Arabic-Indic digits, four
    bytes long, does not pass, whatever [str.isdigit] says. *)
Example acceptable_counts_characters (isdigit : string -> bool)
    (strip : string -> string) :
  strip fullwidth_1234 = fullwidth_1234 ->
  strip arabic_34 = arabic_34 ->
  isdigit fullwidth_1234 = true ->
  acceptable isdigit strip fullwidth_1234 = true
  /\ length (code_points fullwidth_1234) = 4%nat
  /\ String.length fullwidth_1234 = 12%nat
  /\ acceptable isdigit strip arabic_34 = false.
Proof.
  intros Hf Ha Hd. unfold acceptable. rewrite Hf, Ha, Hd.
  repeat split. destruct (isdigit arabic_34); reflexivity.
Qed.
(** ** The secret *)

Lemma four_digit_numerals_checked :
  forallb four_digit_numeral
          (map Z.of_nat (seq (Z.to_nat 1000) (Z.to_nat 9000))) = true.
Proof. vm_compute. reflexivity. Qed.

Lemma str_of_int_four_digits (n : Z) :
  MIN_NUMBER <= n <= MAX_NUMBER ->
  length (chars (str_of_int n)) = NUMBER_LENGTH
  /\ Forall is_digit (chars (str_of_int n))
  /\ head (chars (str_of_int n)) <> Some "0".
Proof.
  unfold MIN_NUMBER, MAX_NUMBER. intros Hn.
  assert (Hok : four_digit_numeral n = true).
  { apply (proj1 (forallb_forall _ _) four_digit_numerals_checked).
    rewrite <- (Z2Nat.id n) by lia. apply List.in_map, List.in_seq. lia. }
  unfold four_digit_numeral in Hok.
  apply andb_prop in Hok as [Hok H0]. apply andb_prop in Hok as [Hl Hd].
  split; [now apply Nat.eqb_eq|]. split.
  - apply List.Forall_forall. intros c Hc.
    apply (proj1 (forallb_forall _ _) Hd) in Hc.
    now apply bool_decide_eq_true in Hc.
  - apply negb_true_iff, bool_decide_eq_false in H0. exact H0.
Qed.

Lemma randint_range (a b : Z) (s : session) :
  a <= b ->
  exists n,
    a <= n <= b
    /\ randint a b s
       = Some (Returns n,
               {| objects := objects s; allocated := allocated s;
                  outside := outside s; typed := typed s;
                  random_source := random_source s; draws := S (draws s);
                  clock := clock s; ticks := ticks s |}).
Proof.
  intros Hab. exists (a + random_source s (draws s) mod (b - a + 1)).
  split; [|reflexivity].
  pose proof (Z.mod_pos_bound (random_source s (draws s)) (b - a + 1)). lia.
Qed.

Lemma generate_number_run (s : session) :
  generate_number s
  = Some (Returns (allocated s),
          {| objects :=
               heap_update (objects s) (allocated s)
                 (chars (str_of_int
                           (MIN_NUMBER
                            + random_source s (draws s)
                              mod (MAX_NUMBER - MIN_NUMBER + 1))));
             allocated := S (allocated s);
             outside := outside s; typed := typed s;
             random_source := random_source s; draws := S (draws s);
             clock := clock s; ticks := ticks s |}).
Proof. reflexivity. Qed.

Lemma random_number_range (x : Z) :
  MIN_NUMBER <= MIN_NUMBER + x mod (MAX_NUMBER - MIN_NUMBER + 1) <= MAX_NUMBER.
Proof.
  unfold MIN_NUMBER, MAX_NUMBER.
  pose proof (Z.mod_pos_bound x (9999 - 1000 + 1)). lia.
Qed.

Lemma chars_inj (a b : string) : chars a = chars b -> a = b.
Proof.
  revert b. induction a as [|c a IH]; intros [|d b]; cbn; try congruence.
  intros [= -> E]. f_equal. now apply IH.
Qed.
(** X12. Whatever the random source gives, the secret of a game is a new
    list of four digits that spells a number from 1000 to 9999, so its first
    digit is not a zero: it is a guess [get_user_input] can accept. Nothing
    but the random source and the new list changes. *)
Theorem generate_number_four_digits (s : session) :
  exists number,
    generate_number s
    = Some (Returns (allocated s),
            {| objects :=
                 heap_update (objects s) (allocated s) (chars (str_of_int number));
               allocated := S (allocated s);
               outside := outside s; typed := typed s;
               random_source := random_source s; draws := S (draws s);
               clock := clock s; ticks := ticks s |})
    /\ MIN_NUMBER <= number <= MAX_NUMBER
    /\ length (chars (str_of_int number)) = NUMBER_LENGTH
    /\ Forall is_digit (chars (str_of_int number))
    /\ head (chars (str_of_int number)) <> Some "0".
Proof.
  eexists. split; [apply generate_number_run|].
  split; [apply random_number_range|].
  apply str_of_int_four_digits, random_number_range.
Qed.
(** ** The ten best scores *)

Lemma sorted_unique (l1 l2 : list Z) :
  Sorted Z.le l1 -> Sorted Z.le l2 -> l1 ≡ₚ l2 -> l1 = l2.
Proof. apply Sorted_unique; apply _. Qed.

Lemma sorted_Sorted (l : list Z) : Sorted Z.le (sorted l).
Proof. apply Sorted_merge_sort. apply _. Qed.

Lemma sorted_fixed (l : list Z) : Sorted Z.le l -> sorted l = l.
Proof.
  intros Hl. apply sorted_unique; [apply sorted_Sorted | exact Hl|].
  apply sorted_permutation.
Qed.

Lemma sorted_insert (l : list Z) (x : Z) :
  sorted (l ++ [x]) = list_merge Z.le [x] (sorted l).
Proof.
  apply sorted_unique.
  - apply sorted_Sorted.
  - apply Sorted_list_merge; [apply _ | repeat constructor | apply sorted_Sorted].
  - rewrite sorted_permutation, merge_Permutation, sorted_permutation.
    apply Permutation_app_comm.
Qed.

Lemma take_insert (x : Z) (a b : list Z) :
  take (length a) (list_merge Z.le [x] (a ++ b))
  = take (length a) (list_merge Z.le [x] a).
Proof.
  induction a as [|y a IH]; [reflexivity|].
  cbn [app]. rewrite !list_merge_cons. destruct (decide (x <= y)).
  - rewrite !list_merge_nil_l. cbn [length take]. f_equal.
    change (y :: a ++ b) with ((y :: a) ++ b).
    rewrite take_app_le by (cbn; lia). reflexivity.
  - cbn [length take]. f_equal. exact IH.
Qed.

Lemma take_insert_take (k : nat) (x : Z) (l : list Z) :
  take k (list_merge Z.le [x] l) = take k (list_merge Z.le [x] (take k l)).
Proof.
  destruct (decide (k <= length l)%nat) as [Hk|Hk].
  - assert (Hlen : length (take k l) = k) by (rewrite length_take; lia).
    rewrite <- (take_drop k l) at 1. rewrite <- Hlen at 1.
    rewrite take_insert, Hlen. reflexivity.
  - rewrite (take_ge l) by lia. reflexivity.
Qed.

Lemma Sorted_take (k : nat) (l : list Z) : Sorted Z.le l -> Sorted Z.le (take k l).
Proof.
  intros Hl. apply Sorted_StronglySorted in Hl; [|apply _].
  rewrite <- (take_drop k l) in Hl. apply StronglySorted_app_1_l in Hl.
  now apply StronglySorted_Sorted.
Qed.

(** Keeping the [k] smallest after every score keeps the [k] smallest of
    all. *)
Lemma top_absorb (k : nat) (a b : list Z) :
  take k (sorted (take k (sorted a) ++ b)) = take k (sorted (a ++ b)).
Proof.
  induction b as [|x b IH] using rev_ind.
  - rewrite !app_nil_r, sorted_fixed by apply Sorted_take, sorted_Sorted.
    apply take_take_same || (rewrite take_take; f_equal; lia).
  - rewrite !app_assoc, !sorted_insert.
    rewrite take_insert_take, IH, <- take_insert_take. reflexivity.
Qed.

Lemma top_snoc (k : nat) (a : list Z) (x : Z) (b : list Z) :
  take k (sorted (take k (sorted (a ++ [x])) ++ b))
  = take k (sorted (a ++ x :: b)).
Proof. rewrite top_absorb, <- app_assoc. reflexivity. Qed.

Section HighscoreMore.

Context (int_of_str : string -> option Z) (strip : string -> string).

(** What Python's [int] and [str.strip] do with a line that [highscore]
    wrote. *)
Hypothesis numeral_line : forall n : Z,
  strip (str_of_int n ++ newline) <> ""
  /\ int_of_str (strip (str_of_int n ++ newline)) = Some n.

Lemma read_scores_written (scores : list Z) :
  read_scores int_of_str strip
    (map (fun s => str_of_int s ++ newline)%string scores)
  = Returns scores.
Proof.
  induction scores as [|n scores IH]; [reflexivity|].
  cbn [map read_scores]. destruct (numeral_line n) as [Hne Hint].
  rewrite bool_decide_eq_true_2 by exact Hne. now rewrite Hint, IH.
Qed.

Lemma after_highscore_prior (result : list Z) (w : world) :
  write_error w = None ->
  write_error (after_highscore result w) = None
  /\ prior_scores int_of_str strip (score_file (after_highscore result w))
     = Some result.
Proof.
  intros Hw. unfold after_highscore. rewrite Hw. cbn.
  now rewrite read_scores_written.
Qed.

Lemma highscore_each_run (scores : list Z) :
  forall (w : world) (old acc : list Z),
    write_error w = None ->
    prior_scores int_of_str strip (score_file w) = Some old ->
    exists w',
      for_each scores (fun score _ => highscore int_of_str strip score) acc w
      = (Returns (match scores with
                  | [] => acc
                  | _ => take 10 (sorted (old ++ scores))
                  end), w')
      /\ write_error w' = None
      /\ score_file w'
         = match scores with
           | [] => score_file w
           | _ => Lines (map (fun s => str_of_int s ++ newline)%string
                             (take 10 (sorted (old ++ scores))))
           end
      /\ stdout w' = stdout w.
Proof.
  induction scores as [|x scores IH]; intros w old acc Hw Hold.
  - exists w. repeat split; assumption.
  - cbn [for_each].
    rewrite (bind_returns _ _ _ _ _ (highscore_run int_of_str strip x w old Hold)).
    destruct (after_highscore_prior (take 10 (sorted (old ++ [x]))) w Hw)
      as [Hw1 Hold1].
    destruct (IH _ _ (take 10 (sorted (old ++ [x]))) Hw1 Hold1)
      as (w' & Hrun & Hw' & Hfile & Hout).
    exists w'. rewrite Hrun, Hfile. split; [|split; [exact Hw'|split]].
    + destruct scores; [reflexivity|]. now rewrite top_snoc.
    + destruct scores; [|now rewrite top_snoc].
      unfold after_highscore. now rewrite Hw.
    + rewrite Hout. unfold after_highscore. now rewrite Hw.
Qed.

End HighscoreMore.
(** ** The builtins on the lines [highscore] writes *)

Lemma numeral_char_plain (c : ascii) :
  (((48 <=? nat_of_ascii c) && (nat_of_ascii c <=? 57))
   || (nat_of_ascii c =? 45))%nat = true ->
  is_space c = false /\ c <> "+"%char.
Proof.
  destruct c as [[] [] [] [] [] [] [] []]; vm_compute; intros H;
    (discriminate H || (split; [reflexivity | discriminate])).
Qed.

Lemma uint_numeral_chars (d : Decimal.uint) :
  numeral_chars (NilEmpty.string_of_uint d) = true.
Proof. induction d; cbn; auto. Qed.

Lemma str_of_int_numeral_chars (n : Z) :
  numeral_chars (str_of_int n) = true /\ str_of_int n <> "".
Proof.
  unfold str_of_int, NilZero.string_of_int, NilZero.string_of_uint.
  destruct (Z.to_int n) as [d|d]; destruct d; cbn;
    rewrite ?uint_numeral_chars; split; (reflexivity || discriminate).
Qed.

Lemma rstrip_plain (s : string) :
  numeral_chars s = true -> s <> "" -> rstrip (s ++ newline) = s.
Proof.
  induction s as [|c s IH]; [congruence|]. intros Hs _.
  cbn [numeral_chars] in Hs. apply andb_prop in Hs as [Hc Hs].
  destruct (numeral_char_plain c Hc) as [Hsp _].
  change (String c s ++ newline)%string with (String c (s ++ newline)).
  cbn [rstrip]. destruct s as [|c' s].
  - change (rstrip ("" ++ newline)) with EmptyString. cbv iota.
    now rewrite Hsp.
  - rewrite IH by (exact Hs || discriminate). reflexivity.
Qed.

Lemma ascii_strip_numeral (s : string) :
  numeral_chars s = true -> s <> "" -> ascii_strip (s ++ newline) = s.
Proof.
  intros Hs Hne. unfold ascii_strip.
  destruct s as [|c s]; [congruence|].
  cbn [numeral_chars] in Hs. pose proof Hs as Hs'.
  apply andb_prop in Hs' as [Hc _].
  destruct (numeral_char_plain c Hc) as [Hsp _].
  change (String c s ++ newline)%string with (String c (s ++ newline)).
  cbn [lstrip]. rewrite Hsp.
  now apply (rstrip_plain (String c s)).
Qed.

Lemma ascii_int_no_plus (c : ascii) (s : string) :
  c <> "+"%char ->
  ascii_int (String c s) = Z.of_int <$> NilZero.int_of_string (String c s).
Proof.
  intros Hc. destruct c as [[] [] [] [] [] [] [] []];
    first [reflexivity | now destruct Hc].
Qed.

Lemma ascii_int_str_of_int (n : Z) : ascii_int (str_of_int n) = Some n.
Proof.
  destruct (str_of_int_numeral_chars n) as [Hs Hne].
  destruct (str_of_int n) as [|c s] eqn:E; [congruence|].
  cbn [numeral_chars] in Hs. apply andb_prop in Hs as [Hc _].
  destruct (numeral_char_plain c Hc) as [_ Hplus].
  rewrite (ascii_int_no_plus c s Hplus), <- E.
  unfold str_of_int. rewrite NilZero.isi.
  - cbn. now rewrite DecimalZ.of_to.
  - destruct n; cbn; [discriminate | |discriminate].
    intros [= H]. now apply DecimalPos.Unsigned.to_uint_nonnil in H.
  - destruct n; cbn; [discriminate | discriminate |].
    intros [= H]. now apply DecimalPos.Unsigned.to_uint_nonnil in H.
Qed.

Lemma ascii_numeral_line (n : Z) :
  ascii_strip (str_of_int n ++ newline) <> ""
  /\ ascii_int (ascii_strip (str_of_int n ++ newline)) = Some n.
Proof.
  destruct (str_of_int_numeral_chars n) as [Hs Hne].
  rewrite (ascii_strip_numeral _ Hs Hne). split; [exact Hne|].
  apply ascii_int_str_of_int.
Qed.

Lemma numeral_char_no_continuation (c : ascii) :
  (((48 <=? nat_of_ascii c) && (nat_of_ascii c <=? 57))
   || (nat_of_ascii c =? 45))%nat = true ->
  continuation_byte c = false.
Proof.
  destruct c as [[] [] [] [] [] [] [] []]; vm_compute; intros H;
    (discriminate H || reflexivity).
Qed.

(** On a numeral the characters are the bytes. *)
Lemma code_points_numeral (s : string) :
  numeral_chars s = true -> code_points s = chars s.
Proof.
  induction s as [|c s IH]; [reflexivity|]. intros Hs.
  cbn [numeral_chars] in Hs. apply andb_prop in Hs as [_ Hs].
  cbn [code_points chars]. rewrite (IH Hs). destruct s as [|d s']; [reflexivity|].
  cbn [numeral_chars] in Hs. apply andb_prop in Hs as [Hd _].
  cbv zeta. now rewrite (numeral_char_no_continuation d Hd).
Qed.

Lemma code_points_str_of_int (n : Z) :
  code_points (str_of_int n) = chars (str_of_int n).
Proof. apply code_points_numeral, str_of_int_numeral_chars. Qed.
(** ** One guess *)

Lemma say_run (text : string) (s : session) :
  say text s = Some (Returns tt, reads [text] (typed s) s).
Proof. reflexivity. Qed.

Section PlayProperties.

Context (isdigit : string -> bool) (strip lower : string -> string)
        (int_of_str : string -> option Z).

Lemma one_attempt_run (g : loc) (attempts : Z) (start_opt : option float)
    (s : session) (rejected : list string) (line : string) (rest : list string) :
  typed s = rejected ++ line :: rest ->
  Forall (fun l => acceptable isdigit strip l = false) rejected ->
  acceptable isdigit strip line = true ->
  (g < allocated s)%nat ->
  length (objects s g) = NUMBER_LENGTH ->
  let won := bool_decide (code_points (strip line) = objects s g) in
  let start := match start_opt with
               | None => clock s (length rest) (ticks s)
               | Some t => t
               end in
  let t1 := match start_opt with None => S (ticks s) | Some _ => ticks s end in
  exists h' bulls cows,
    one_attempt isdigit strip g (attempts, start_opt) s
    = Some (Returns (if won
                     then inr (attempts + 1, start, clock s (length rest) t1)
                     else inl (attempts + 1, Some start)),
            {| objects := h'; allocated := S (allocated s);
               outside :=
                 with_output
                   ([(newline ++ center "Enter the number:" CENTER_WIDTH)%string]
                    ++ flat_map (fun l => [spaces 38; complaint isdigit strip l])
                                rejected
                    ++ [spaces 38; feedback bulls cows]) (outside s);
               typed := rest; random_source := random_source s;
               draws := draws s; clock := clock s;
               ticks := if won then S t1 else t1 |})
    /\ (forall r, (r < allocated s)%nat -> h' r = objects s r).
Proof.
  intros Et Hr Ha Hg Hlen won start t1.
  unfold one_attempt.
  rewrite (prog_bind_returns _ _ _ _ _ (say_run _ s)).
  rewrite (prog_bind_returns _ _ _ _ _
             (get_user_input_run isdigit strip (reads _ (typed s) s)
                rejected line rest Et Hr Ha)).
  cbn [reads objects allocated outside typed random_source draws clock ticks].
  set (u := allocated s).
  set (h2 := heap_update (objects s) u (code_points (strip line))).
  assert (Hg2 : h2 g = objects s g) by (apply heap_update_other; lia).
  assert (Hu2 : h2 u = code_points (strip line)) by apply heap_update_same.
  destruct (evaluate_guess_four g u h2) as (h' & Hrun & _ & Hfr).
  { rewrite Hg2. exact Hlen. }
  { rewrite Hu2. apply (acceptable_length isdigit). exact Ha. }
  destruct (count_bulls_all_iff (h2 g) (h2 u)) as [_ Hiff].
  { rewrite Hg2, Hu2, Hlen. symmetry. apply (acceptable_length isdigit). exact Ha. }
  set (bulls := Reference.count_bulls (Reference.matches (h2 g) (h2 u))) in *.
  set (cows := cows_pass _ _) in Hrun.
  assert (Hwon : (bulls =? Z.of_nat NUMBER_LENGTH) = won).
  { unfold won. rewrite <- Hg2, <- Hu2.
    destruct (Z.eqb_spec bulls (Z.of_nat NUMBER_LENGTH)) as [E|E].
    - symmetry. apply bool_decide_eq_true. symmetry. apply Hiff.
      rewrite E, Hg2, Hlen. reflexivity.
    - symmetry. apply bool_decide_eq_false. intros E'. apply E.
      rewrite <- Hlen, <- Hg2. apply Hiff. symmetry. exact E'. }
  exists h', bulls, cows. split.
  - destruct start_opt as [t|]; unfold mbind, prog_bind, mret, prog_ret,
      time_time, on_store, say, on_world, print;
      cbn [objects allocated outside typed random_source draws clock ticks];
      fold h2; rewrite Hrun;
      cbn [objects allocated outside typed random_source draws clock ticks
           with_output stdout score_file write_error];
      rewrite Hwon; destruct won;
      cbn [objects allocated outside typed random_source draws clock ticks
           with_output stdout score_file write_error];
      unfold start, t1; repeat f_equal;
      rewrite <- !app_assoc; reflexivity.
  - intros r Hr'. rewrite Hfr by lia. apply heap_update_other. lia.
Qed.

Lemma one_attempt_consumes (g : loc) : consumes (one_attempt isdigit strip g).
Proof.
  intros [attempts start_opt] s r s' E. unfold one_attempt in E.
  rewrite (prog_bind_returns _ _ _ _ _ (say_run _ s)) in E.
  destruct (first_accepted (acceptable isdigit strip) (typed s))
    as [Hall | (rejected & line & rest & Et & Hr & Ha)].
  - rewrite (prog_bind_blocks _ _ _
               (get_user_input_blocks isdigit strip (reads _ (typed s) s) Hall))
      in E. discriminate.
  - rewrite (prog_bind_returns _ _ _ _ _
               (get_user_input_run isdigit strip (reads _ (typed s) s)
                  rejected line rest Et Hr Ha)) in E.
    assert (Hlt : (length rest < length (typed s))%nat)
      by (rewrite Et, length_app; cbn; lia).
    unfold mbind, prog_bind, mret, prog_ret, time_time, on_store, say,
      on_world, print in E.
    destruct start_opt as [t|];
      cbn [reads objects allocated outside typed random_source draws clock
           ticks] in E;
      destruct (evaluate_guess g _ _) as [[[bulls cows]|e] h'];
      try discriminate;
      destruct (bulls =? Z.of_nat NUMBER_LENGTH);
      injection E as _ <-; exact Hlt.
Qed.

Lemma with_output_with_output (out1 out2 : list string) (w : world) :
  with_output out2 (with_output out1 w) = with_output (out1 ++ out2) w.
Proof. unfold with_output. cbn. now rewrite <- app_assoc. Qed.

(** The inner loop of [play_game], entered with [attempts] and [start_opt]
    as its local variables. *)
Lemma after_first_accepted_split (rejected : list string) (line : string)
    (rest : list string) :
  Forall (fun l => acceptable isdigit strip l = false) rejected ->
  acceptable isdigit strip line = true ->
  after_first_accepted isdigit strip (rejected ++ line :: rest) = rest.
Proof.
  intros Hr Ha. induction Hr as [|x xs Hx _ IH]; cbn.
  - now rewrite Ha.
  - now rewrite Hx.
Qed.

Lemma filter_none_accepted (accepts : string -> bool) (lines : list string) :
  Forall (fun l => accepts l = false) lines -> List.filter accepts lines = [].
Proof.
  induction 1 as [|x xs Hx _ IH]; [reflexivity|]. cbn. now rewrite Hx.
Qed.

(** The inner loop of [play_game] when the next accepted line spells the
    secret. *)
Lemma attempts_loop_last (g : loc) (s : session) (attempts : Z)
    (start_opt : option float) (rejected : list string) (right : string)
    (rest : list string) :
  typed s = rejected ++ right :: rest ->
  Forall (fun l => acceptable isdigit strip l = false) rejected ->
  acceptable isdigit strip right = true ->
  code_points (strip right) = objects s g ->
  (g < allocated s)%nat ->
  length (objects s g) = NUMBER_LENGTH ->
  let start := match start_opt with
               | None => clock s (length rest) (ticks s)
               | Some t => t
               end in
  let t1 := match start_opt with None => S (ticks s) | Some _ => ticks s end in
  exists h' a' out,
    while_true (one_attempt isdigit strip g) (attempts, start_opt) s
    = Some (Returns (attempts
                     + Z.of_nat (length (List.filter (acceptable isdigit strip)
                                                     rejected)) + 1,
                     start, clock s (length rest) t1),
            {| objects := h'; allocated := a';
               outside := with_output out (outside s);
               typed := rest; random_source := random_source s;
               draws := draws s; clock := clock s; ticks := S t1 |})
    /\ (forall r, (r < allocated s)%nat -> h' r = objects s r)
    /\ (allocated s < a')%nat.
Proof.
  intros Et Hall Ha Hs Hg Hlen start t1.
  destruct (one_attempt_run g attempts start_opt s rejected right rest Et
              Hall Ha Hg Hlen)
    as (h' & bulls & cows & Hrun & Hfr).
  rewrite bool_decide_eq_true_2 in Hrun by exact Hs.
  exists h', (S (allocated s)). eexists. split; [|split; [exact Hfr | lia]].
  rewrite (while_true_done _ _ _ _ _ Hrun), (filter_none_accepted _ _ Hall).
  cbn [length]. rewrite Z.add_0_r. reflexivity.
Qed.

(** The inner loop of [play_game], entered with [attempts] and [start_opt]
    as its local variables. *)
Lemma attempts_loop (g : loc) (secret : list string) (n : nat) :
  forall (lines : list string) (s : session) (attempts : Z)
         (start_opt : option float) (right : string) (rest : list string),
    (length lines <= n)%nat ->
    typed s = lines ++ right :: rest ->
    Forall (fun l => acceptable isdigit strip l = true ->
                     code_points (strip l) <> secret) lines ->
    acceptable isdigit strip right = true ->
    code_points (strip right) = secret ->
    (g < allocated s)%nat ->
    objects s g = secret ->
    length secret = NUMBER_LENGTH ->
    let start :=
      match start_opt with
      | None =>
          clock s (length (after_first_accepted isdigit strip (typed s)))
                (ticks s)
      | Some t => t
      end in
    let t1 := match start_opt with None => S (ticks s) | Some _ => ticks s end in
    exists h' a' out,
      while_true (one_attempt isdigit strip g) (attempts, start_opt) s
      = Some (Returns (attempts
                       + Z.of_nat (length (List.filter (acceptable isdigit strip)
                                                       lines)) + 1,
                       start, clock s (length rest) t1),
              {| objects := h'; allocated := a';
                 outside := with_output out (outside s);
                 typed := rest; random_source := random_source s;
                 draws := draws s; clock := clock s; ticks := S t1 |})
      /\ (forall r, (r < allocated s)%nat -> h' r = objects s r)
      /\ (allocated s < a')%nat.
Proof.
  induction n as [|n IH];
    intros lines s attempts start_opt right rest Hn Et Hl Ha Hs Hg Hobj Hlen
           start t1;
    destruct (first_accepted (acceptable isdigit strip) lines)
      as [Hall | (rejected & l & lines' & -> & Hr & Hal)];
    try (unfold start; rewrite Et, (after_first_accepted_split _ _ _ Hall Ha);
         apply (attempts_loop_last g s attempts start_opt lines right rest
                  Et Hall Ha); [congruence | assumption | congruence]).
  - rewrite length_app in Hn. cbn in Hn. lia.
  - unfold start, t1. clear start t1.
    rewrite <- app_assoc in Et. cbn [app] in Et.
    rewrite Et, (after_first_accepted_split _ _ _ Hr Hal).
    apply Forall_app in Hl as [_ Hl].
    apply Forall_cons in Hl as [Hne Hl'].
    destruct (one_attempt_run g attempts start_opt s rejected l
                (lines' ++ right :: rest) Et Hr Hal Hg
                ltac:(rewrite Hobj; exact Hlen))
      as (h1 & bulls & cows & Hrun & Hfr).
    rewrite bool_decide_eq_false_2 in Hrun by (rewrite Hobj; now apply Hne).
    rewrite (while_true_again _ _ _ _ _ (one_attempt_consumes g) Hrun).
    match goal with
    | |- context [while_true _ _ ?s1] =>
        destruct (IH lines' s1 (attempts + 1)
                    (Some match start_opt with
                          | None =>
                              clock s (length (lines' ++ right :: rest))
                                    (ticks s)
                          | Some t => t
                          end) right rest)
          as (h' & a' & out & Hloop & Hfr' & Ha')
    end; try assumption.
    + rewrite length_app in Hn. cbn in Hn. lia.
    + reflexivity.
    + cbn. lia.
    + cbn. rewrite Hfr by exact Hg. exact Hobj.
    + cbn [objects allocated outside typed random_source draws clock ticks]
        in Hloop, Hfr', Ha'.
      exists h', a'. eexists. split; [|split].
      * rewrite Hloop, with_output_with_output.
        rewrite List.filter_app, (filter_none_accepted _ _ Hr).
        cbn [List.filter app]. rewrite Hal. cbn [length].
        set (k := length (List.filter (acceptable isdigit strip) lines')).
        replace (attempts + Z.of_nat (S k) + 1)
          with (attempts + 1 + Z.of_nat k + 1) by lia.
        destruct start_opt; reflexivity.
      * intros r Hr0. rewrite Hfr' by lia. now apply Hfr.
      * lia.
Qed.

Lemma one_game_run (first_game : bool) (s : session) (lines : list string)
    (right : string) (no_answers : list string) (answer : string)
    (rest : list string) (old : list Z) (mins secs score : Z) :
  let number :=
    MIN_NUMBER + random_source s (draws s) mod (MAX_NUMBER - MIN_NUMBER + 1) in
  let attempts :=
    Z.of_nat (length (List.filter (acceptable isdigit strip) lines)) + 1 in
  let result := take 10 (sorted (old ++ [score])) in
  let greeting :=
    if first_game then introduction DIVIDER else (newline ++ DIVIDER)%string in
  typed s = lines ++ right :: no_answers ++ answer :: rest ->
  Forall (fun l => acceptable isdigit strip l = true ->
                   strip l <> str_of_int number) lines ->
  acceptable isdigit strip right = true ->
  strip right = str_of_int number ->
  Forall (fun l => answers strip lower l = false) no_answers ->
  answers strip lower answer = true ->
  calculate_time
    (clock s (length (after_first_accepted isdigit strip (typed s))) (ticks s))
    (clock s (length (no_answers ++ answer :: rest)) (S (ticks s)))
  = Returns (mins, secs, score) ->
  prior_scores int_of_str strip (score_file (outside s)) = Some old ->
  exists h' a' out1 out2,
    one_game isdigit strip lower int_of_str first_game s
    = Some (Returns (if String.eqb (lower (strip answer)) "y"
                     then inl false else inr tt),
            {| objects := h'; allocated := a';
               outside :=
                 with_output
                   ([end_credits DIVIDER mins secs result attempts] ++ out2)
                   (after_highscore result
                      (with_output ([greeting] ++ out1) (outside s)));
               typed := rest; random_source := random_source s;
               draws := S (draws s); clock := clock s;
               ticks := S (S (ticks s)) |}).
Proof.
  intros number attempts result greeting Et Hl Ha Hs Hno Hans Htime Hold.
  unfold one_game.
  assert (Hsay : (if first_game then say (introduction DIVIDER)
                  else say (newline ++ DIVIDER)%string) s
                 = Some (Returns tt, reads [greeting] (typed s) s))
    by (unfold greeting; destruct first_game; apply say_run).
  rewrite (prog_bind_returns _ _ _ _ _ Hsay).
  rewrite (prog_bind_returns _ _ _ _ _ (generate_number_run _)).
  cbn [reads objects allocated outside typed random_source draws clock ticks].
  fold number.
  set (g := allocated s).
  set (secret := chars (str_of_int number)).
  destruct (str_of_int_four_digits number (random_number_range _))
    as (Hlen & _ & _).
  cbv beta.
  match goal with
  | |- context [(while_true _ _ ≫= _) ?s2] =>
      destruct (attempts_loop g secret (length lines) lines s2 0 None right
                  (no_answers ++ answer :: rest))
        as (h' & a' & out & Hloop & _ & _)
  end.
  { lia. }
  { exact Et. }
  { eapply Forall_impl; [exact Hl|]. intros l Hne Hal E.
    apply (Hne Hal). apply code_points_inj.
    rewrite E. unfold secret. symmetry. apply code_points_str_of_int. }
  { exact Ha. }
  { unfold secret. rewrite Hs. apply code_points_str_of_int. }
  { cbn. lia. }
  { cbn. apply heap_update_same. }
  { exact Hlen. }
  cbn [objects allocated outside typed random_source draws clock ticks]
    in Hloop.
  rewrite (prog_bind_returns _ _ _ _ _ Hloop). cbv beta iota.
  rewrite Z.add_0_l. fold attempts.
  unfold on_value at 1. unfold mbind at 1. unfold prog_bind at 1.
  rewrite Htime. cbv beta iota.
  unfold on_world at 1. unfold mbind at 1. unfold prog_bind at 1.
  cbn [objects allocated outside typed random_source draws clock ticks].
  rewrite (highscore_run int_of_str strip score _ old) by exact Hold.
  fold result.
  rewrite (prog_bind_returns _ _ _ _ _ (say_run _ _)).
  cbn [reads objects allocated outside typed random_source draws clock ticks].
  match goal with
  | |- context [(ask_to_continue _ _ ≫= _) ?s5] =>
      rewrite (prog_bind_returns _ _ _ _ _
                 (ask_to_continue_run strip lower s5 no_answers answer rest
                    eq_refl Hno Hans))
  end.
  exists h', a', out. eexists.
  destruct (String.eqb (lower (strip answer)) "y"); cbn [negb];
    unfold mret, prog_ret, reads;
    cbn [objects allocated outside typed random_source draws clock ticks];
    rewrite !with_output_with_output; reflexivity.
Qed.

End PlayProperties.
Section PlayTheorems.

Context (isdigit : string -> bool) (strip lower : string -> string)
        (int_of_str : string -> option Z).

(** X13. In the game loop [evaluate_guess] cannot raise: against a secret of
    four entries, one pass of the inner loop of [play_game] ends with no
    exception of [evaluate_guess], nor of any other call it makes. It either
    completes or is stopped in [input], and it is stopped exactly when none
    of the typed lines passes the tests of [get_user_input]. The
    [IndexError] of [evaluate_guess] cannot occur, because every accepted
    guess is a new list of four characters. *)
Theorem one_attempt_never_raises (generated_number : loc)
    (locals : Z * option float) (s : session) :
  (generated_number < allocated s)%nat ->
  length (objects s generated_number) = NUMBER_LENGTH ->
  (forall e s',
     one_attempt isdigit strip generated_number locals s <> Some (Raises e, s'))
  /\ (one_attempt isdigit strip generated_number locals s = None
      <-> Forall (fun l => acceptable isdigit strip l = false) (typed s)).
Proof.
  intros Hg Hlen. destruct locals as [attempts start_opt].
  destruct (first_accepted (acceptable isdigit strip) (typed s))
    as [Hall | (rejected & line & rest & Et & Hr & Ha)].
  - assert (E : one_attempt isdigit strip generated_number (attempts, start_opt) s
                = None).
    { unfold one_attempt.
      rewrite (prog_bind_returns _ _ _ _ _ (say_run _ s)).
      apply prog_bind_blocks.
      now apply (get_user_input_blocks isdigit strip (reads _ (typed s) s)). }
    rewrite E. split; [discriminate | tauto].
  - destruct (one_attempt_run isdigit strip generated_number attempts start_opt
                s rejected line rest Et Hr Ha Hg Hlen)
      as (h' & bulls & cows & -> & _).
    split; [discriminate|]. split; [discriminate|].
    rewrite Et. intros Hall. apply Forall_app in Hall as [_ Hall].
    apply Forall_cons in Hall as [Hl _]. congruence.
Qed.

(** X14. The inner loop of [play_game] ends at the first accepted line that
    spells the secret. The number of attempts it reports is the number of
    accepted lines, that one included: lines turned down by [get_user_input]
    do not count. The clock is read exactly twice, whatever the number of
    attempts. The start time is what the clock shows when the lines after
    the first accepted line, and only they, are still unread: it is read
    after the first guess has been typed, not before, so that the time taken
    to type the first guess is not measured. The end time is what the clock
    shows when the lines after the winning line are still unread. The secret
    and the score file are left as they were. *)
Theorem attempts_count_accepted_lines (generated_number : loc) (s : session)
    (lines : list string) (right : string) (rest : list string) :
  typed s = lines ++ right :: rest ->
  Forall (fun l => acceptable isdigit strip l = true ->
                   code_points (strip l) <> objects s generated_number) lines ->
  acceptable isdigit strip right = true ->
  code_points (strip right) = objects s generated_number ->
  (generated_number < allocated s)%nat ->
  length (objects s generated_number) = NUMBER_LENGTH ->
  exists s',
    while_true (one_attempt isdigit strip generated_number) (0, None) s
    = Some (Returns (Z.of_nat (length (List.filter (acceptable isdigit strip)
                                                   lines)) + 1,
                     clock s (length (after_first_accepted isdigit strip
                                                           (typed s)))
                           (ticks s),
                     clock s (length rest) (S (ticks s))),
            s')
    /\ typed s' = rest
    /\ ticks s' = S (S (ticks s))
    /\ clock s' = clock s
    /\ objects s' generated_number = objects s generated_number
    /\ score_file (outside s') = score_file (outside s).
Proof.
  intros Et Hl Ha Hs Hg Hlen.
  destruct (attempts_loop isdigit strip generated_number
              (objects s generated_number) (length lines) lines s 0 None right
              rest (le_n _) Et Hl Ha Hs Hg eq_refl Hlen)
    as (h' & a' & out & Hloop & Hfr & _).
  eexists. split; [rewrite Hloop, Z.add_0_l; reflexivity|].
  cbn. repeat split. now apply Hfr.
Qed.

(** X15. A whole game. The user types some lines, then the secret, then
    some lines and an answer that lowers to ['n']; the score file can be
    read or is missing, and the two clock readings, the one after the first
    accepted line and the one after the secret, give a time that
    [calculate_time] can convert. Then [play_game] returns. It has printed
    the introduction first; it has handed the converted total to
    [highscore], which has rewritten the score file with the ten best scores
    (or printed its warning); after that it has printed the end credits,
    with the minutes, the seconds, these scores and the number of accepted
    guesses; it has drawn one random number and read the clock twice, and the
    lines typed after the answer are left unread. *)
Theorem play_game_single_game (s : session) (lines : list string)
    (right : string) (no_answers : list string) (answer : string)
    (rest : list string) (old : list Z) (mins secs score : Z) :
  let number :=
    MIN_NUMBER + random_source s (draws s) mod (MAX_NUMBER - MIN_NUMBER + 1) in
  let attempts :=
    Z.of_nat (length (List.filter (acceptable isdigit strip) lines)) + 1 in
  let result := take 10 (sorted (old ++ [score])) in
  typed s = lines ++ right :: no_answers ++ answer :: rest ->
  Forall (fun l => acceptable isdigit strip l = true ->
                   strip l <> str_of_int number) lines ->
  acceptable isdigit strip right = true ->
  strip right = str_of_int number ->
  Forall (fun l => answers strip lower l = false) no_answers ->
  lower (strip answer) = "n" ->
  calculate_time
    (clock s (length (after_first_accepted isdigit strip (typed s))) (ticks s))
    (clock s (length (no_answers ++ answer :: rest)) (S (ticks s)))
  = Returns (mins, secs, score) ->
  prior_scores int_of_str strip (score_file (outside s)) = Some old ->
  exists s' out1 out2,
    play_game isdigit strip lower int_of_str s = Some (Returns tt, s')
    /\ outside s'
       = with_output ([end_credits DIVIDER mins secs result attempts] ++ out2)
           (after_highscore result
              (with_output ([introduction DIVIDER] ++ out1) (outside s)))
    /\ typed s' = rest
    /\ draws s' = S (draws s)
    /\ ticks s' = S (S (ticks s)).
Proof.
  intros number attempts result Et Hl Ha Hs Hno Hn Htime Hold.
  assert (Hans : answers strip lower answer = true)
    by (unfold answers; rewrite Hn; reflexivity).
  destruct (one_game_run isdigit strip lower int_of_str true s lines right
              no_answers answer rest old mins secs score Et Hl Ha Hs Hno Hans
              Htime Hold)
    as (h' & a' & out1 & out2 & Hrun).
  rewrite Hn in Hrun. cbn [String.eqb Ascii.eqb] in Hrun.
  change (("n" =? "y")%string) with false in Hrun.
  eexists _, out1, out2. split.
  - unfold play_game. apply while_true_done. exact Hrun.
  - cbn. repeat split.
Qed.

End PlayTheorems.

Lemma one_attempt_never_raises_witness :
  let s := {| objects := two_lists (chars "1234") [];
              allocated := 1%nat;
              outside := {| score_file := Missing; write_error := None;
                            stdout := [] |};
              typed := ["12"; "1243"]; random_source := fun _ => 0;
              draws := 1%nat; clock := fun _ _ => float_0; ticks := 0%nat |} in
  (forall e s',
     one_attempt ascii_isdigit ascii_strip 0%nat (0, None) s
     <> Some (Raises e, s'))
  /\ (one_attempt ascii_isdigit ascii_strip 0%nat (0, None) s = None
      <-> Forall (fun l => acceptable ascii_isdigit ascii_strip l = false)
                 (typed s)).
Proof.
  intros s.
  apply (one_attempt_never_raises ascii_isdigit ascii_strip 0%nat (0, None) s).
  - vm_compute. lia.
  - reflexivity.
Defined.

Lemma attempts_count_accepted_lines_witness :
  let s := {| objects := two_lists (chars "1234") [];
              allocated := 1%nat;
              outside := {| score_file := Missing; write_error := None;
                            stdout := [] |};
              typed := ["12"; "1243"; "0123"; " 4321 "; "1234"; "n"];
              random_source := fun _ => 0; draws := 1%nat;
              clock := fun unread _ => float_of_int (60 - 10 * Z.of_nat unread);
              ticks := 0%nat |} in
  exists s',
    while_true (one_attempt ascii_isdigit ascii_strip 0%nat) (0, None) s
    = Some (Returns (Z.of_nat (length (List.filter
                                         (acceptable ascii_isdigit ascii_strip)
                                         ["12"; "1243"; "0123"; " 4321 "])) + 1,
                     clock s (length (after_first_accepted
                                        ascii_isdigit ascii_strip (typed s)))
                           (ticks s),
                     clock s (length ["n"]) (S (ticks s))),
            s')
    /\ typed s' = ["n"]
    /\ ticks s' = S (S (ticks s))
    /\ clock s' = clock s
    /\ objects s' 0%nat = objects s 0%nat
    /\ score_file (outside s') = score_file (outside s).
Proof.
  intros s.
  apply (attempts_count_accepted_lines ascii_isdigit ascii_strip 0%nat s
           ["12"; "1243"; "0123"; " 4321 "] "1234" ["n"]).
  - reflexivity.
  - repeat constructor; vm_compute; congruence.
  - reflexivity.
  - reflexivity.
  - vm_compute. lia.
  - reflexivity.
Defined.

(** In that session the first line is turned down and the second is the
    first accepted one: the start time is the 20.0 that the clock shows when
    four lines are unread, not the 0.0 of the beginning nor the 10.0 shown
    while the first guess was being typed; the end time is 50.0, and there
    were three attempts. *)
Example attempts_count_accepted_lines_times :
  let s := {| objects := two_lists (chars "1234") [];
              allocated := 1%nat;
              outside := {| score_file := Missing; write_error := None;
                            stdout := [] |};
              typed := ["12"; "1243"; "0123"; " 4321 "; "1234"; "n"];
              random_source := fun _ => 0; draws := 1%nat;
              clock := fun unread _ => float_of_int (60 - 10 * Z.of_nat unread);
              ticks := 0%nat |} in
  fst <$> while_true (one_attempt ascii_isdigit ascii_strip 0%nat) (0, None) s
  = Some (Returns (3, float_of_int 20, float_of_int 50)).
Proof. vm_compute. reflexivity. Qed.

Lemma play_game_single_game_witness :
  let s := {| objects := fun _ => []; allocated := 0%nat;
              outside := {| score_file := Missing; write_error := None;
                            stdout := [] |};
              typed := ["1243"; "12"; "1234"; "x"; " N "; "later"];
              random_source := fun _ => 234; draws := 0%nat;
              clock := fun unread _ => float_of_int (150 - 25 * Z.of_nat unread);
              ticks := 0%nat |} in
  exists s' out1 out2,
    play_game ascii_isdigit ascii_strip ascii_lower ascii_int s
    = Some (Returns tt, s')
    /\ outside s'
       = with_output
           ([end_credits DIVIDER 0 50 (take 10 (sorted ([] ++ [50])))
               (Z.of_nat (length (List.filter
                                    (acceptable ascii_isdigit ascii_strip)
                                    ["1243"; "12"])) + 1)]
            ++ out2)
           (after_highscore (take 10 (sorted ([] ++ [50])))
              (with_output ([introduction DIVIDER] ++ out1) (outside s)))
    /\ typed s' = ["later"]
    /\ draws s' = S (draws s)
    /\ ticks s' = S (S (ticks s)).
Proof.
  intros s.
  apply (play_game_single_game ascii_isdigit ascii_strip ascii_lower ascii_int s
           ["1243"; "12"] "1234" ["x"] " N " ["later"] [] 0 50 50).
  - reflexivity.
  - repeat constructor; vm_compute; congruence.
  - reflexivity.
  - reflexivity.
  - repeat constructor.
  - reflexivity.
  - vm_compute. reflexivity.
  - reflexivity.
Defined.
Section HighscoreTheorems.

Context (int_of_str : string -> option Z) (strip : string -> string).

(** X16. What [highscore] writes, it reads back: given that [int] and
    [str.strip] turn a written line into its number again, as Python's do,
    reading the score file after a call that could write it gives exactly
    the list the call returned. *)
Theorem highscore_reads_back (score : Z) (w : world) :
  (forall n : Z,
     strip (str_of_int n ++ newline) <> ""
     /\ int_of_str (strip (str_of_int n ++ newline)) = Some n) ->
  write_error w = None ->
  (forall msg, score_file w <> Unreadable msg) ->
  exists result w',
    highscore int_of_str strip score w = (Returns result, w')
    /\ load_scores int_of_str strip w' = (Returns result, w').
Proof.
  intros Hline Hw Hst.
  destruct (prior_scores_readable int_of_str strip _ Hst) as [old Hold].
  eexists _, _. split; [exact (highscore_run _ _ score w old Hold)|].
  unfold after_highscore. rewrite Hw.
  unfold load_scores, open_read, lift_outcome, mbind, eff_bind.
  cbn [score_file]. now rewrite read_scores_written.
Qed.

(** X17. Over several games the score file holds the ten best scores of
    all: when the file can be written and [int] and [str.strip] read its
    lines back, calling [highscore] for one score after the other returns, at
    the last call, the ten smallest of the scores the file held at first and
    of all the scores given since, in ascending order, and leaves exactly
    these in the file; nothing is printed. *)
Theorem highscore_each_keeps_ten_best (scores : list Z) (last : Z) (w : world)
    (old : list Z) :
  (forall n : Z,
     strip (str_of_int n ++ newline) <> ""
     /\ int_of_str (strip (str_of_int n ++ newline)) = Some n) ->
  write_error w = None ->
  prior_scores int_of_str strip (score_file w) = Some old ->
  exists w',
    highscore_each int_of_str strip (scores ++ [last]) w
    = (Returns (take 10 (sorted (old ++ scores ++ [last]))), w')
    /\ score_file w'
       = Lines (map (fun s => str_of_int s ++ newline)%string
                    (take 10 (sorted (old ++ scores ++ [last]))))
    /\ stdout w' = stdout w.
Proof.
  intros Hline Hw Hold.
  destruct (highscore_each_run int_of_str strip Hline (scores ++ [last]) w old
              [] Hw Hold) as (w' & Hrun & _ & Hfile & Hout).
  exists w'. unfold highscore_each. rewrite Hrun, Hfile.
  destruct (scores ++ [last]) eqn:E; [now destruct scores|].
  repeat split. exact Hout.
Qed.


(** X20. A new score is left out only when ten scores at least as good are
    kept: the list [highscore] returns is never empty, and either the new
    score is in it, or it has ten entries and none of them is greater than
    the new score. *)
Theorem highscore_drops_only_beaten_score (score : Z) (w : world) :
  (forall msg, score_file w <> Unreadable msg) ->
  exists result,
    fst (highscore int_of_str strip score w) = Returns result
    /\ result <> []
    /\ (score ∈ result
        \/ (length result = 10%nat /\ Forall (fun x => x <= score) result)).
Proof.
  intros Hst.
  destruct (prior_scores_readable int_of_str strip _ Hst) as [old Hold].
  rewrite (highscore_run _ _ score w old Hold). cbn [fst].
  eexists. split; [reflexivity|].
  set (l := sorted (old ++ [score])).
  assert (Hin : score ∈ l).
  { unfold l. rewrite sorted_permutation. apply elem_of_app. right.
    apply list_elem_of_here. }
  assert (Hsorted : StronglySorted Z.le (take 10 l ++ drop 10 l))
    by (rewrite take_drop; apply sorted_strongly).
  rewrite <- (take_drop 10 l) in Hin. apply elem_of_app in Hin as [Hin|Hin].
  - split; [|left; exact Hin]. intros E. rewrite E in Hin. inversion Hin.
  - assert (Hlen : length (take 10 l) = 10%nat).
    { rewrite length_take. apply Nat.min_l.
      destruct (decide (10 <= length l)%nat) as [|Hshort]; [assumption|].
      rewrite drop_ge in Hin by lia. inversion Hin. }
    split; [intros E; rewrite E in Hlen; discriminate|].
    right. split; [exact Hlen|].
    apply Forall_forall. intros x Hx.
    exact (StronglySorted_app_1_elem_of _ _ _ _ _ Hsorted Hx Hin).
Qed.

End HighscoreTheorems.

Lemma highscore_reads_back_witness :
  exists result w',
    highscore ascii_int ascii_strip 25 eleven_scores = (Returns result, w')
    /\ load_scores ascii_int ascii_strip w' = (Returns result, w').
Proof.
  apply (highscore_reads_back ascii_int ascii_strip 25 eleven_scores).
  - exact ascii_numeral_line.
  - reflexivity.
  - intros msg. discriminate.
Defined.

Lemma highscore_each_keeps_ten_best_witness :
  exists w',
    highscore_each ascii_int ascii_strip ([100; 3; 250] ++ [64]) eleven_scores
    = (Returns (take 10 (sorted ([40; 12; 7; 95; 33; 61; 8; 120; 54; 19; 76]
                                 ++ [100; 3; 250] ++ [64]))), w')
    /\ score_file w'
       = Lines (map (fun s => str_of_int s ++ newline)%string
                    (take 10 (sorted ([40; 12; 7; 95; 33; 61; 8; 120; 54; 19; 76]
                                      ++ [100; 3; 250] ++ [64]))))
    /\ stdout w' = stdout eleven_scores.
Proof.
  apply (highscore_each_keeps_ten_best ascii_int ascii_strip [100; 3; 250] 64
           eleven_scores [40; 12; 7; 95; 33; 61; 8; 120; 54; 19; 76]).
  - exact ascii_numeral_line.
  - reflexivity.
  - reflexivity.
Defined.


Lemma highscore_drops_only_beaten_score_witness :
  exists result,
    fst (highscore ascii_int ascii_strip 500 eleven_scores) = Returns result
    /\ result <> []
    /\ (500 ∈ result
        \/ (length result = 10%nat /\ Forall (fun x => x <= 500) result)).
Proof.
  apply (highscore_drops_only_beaten_score ascii_int ascii_strip 500
           eleven_scores).
  intros msg. discriminate.
Defined.

(** ** The timer on times that are no numbers *)

(** X21. When the difference of the two times is not a finite number (one
    of them is infinite or not a number, or the subtraction overflows),
    [calculate_time] raises [ValueError]: the floor division gives a
    not-a-number, which [int] refuses. It never raises the [OverflowError]
    that [round] or [int] would raise on the infinite difference itself. *)
Theorem calculate_time_not_finite (start_time end_time : float) :
  float_sub end_time start_time = S754_nan
  \/ (exists negative, float_sub end_time start_time = S754_infinity negative) ->
  calculate_time start_time end_time = Raises ValueError.
Proof.
  intros [E | [negative E]]; unfold calculate_time; rewrite E.
  - vm_compute. reflexivity.
  - destruct negative; vm_compute; reflexivity.
Qed.

Lemma calculate_time_not_finite_witness :
  calculate_time float_0 (S754_infinity false) = Raises ValueError.
Proof.
  apply (calculate_time_not_finite float_0 (S754_infinity false)).
  right. exists false. vm_compute. reflexivity.
Defined.

(** ** The feedback line *)

Lemma spaces_length (n : nat) : String.length (spaces n) = n.
Proof. induction n; cbn; congruence. Qed.

Lemma append_length (a b : string) :
  String.length (a ++ b) = (String.length a + String.length b)%nat.
Proof.
  induction a as [|c a IH]; [reflexivity|].
  change (String c a ++ b)%string with (String c (a ++ b)). cbn. now rewrite IH.
Qed.

Lemma append_assoc (a b c : string) : ((a ++ b) ++ c = a ++ b ++ c)%string.
Proof.
  induction a as [|x a IH]; [reflexivity|].
  change ((String x a ++ b) ++ c)%string with (String x ((a ++ b) ++ c)).
  now rewrite IH.
Qed.

Lemma format_center_length (s : string) (width : nat) :
  String.length (format_center s width) = Nat.max width (String.length s).
Proof.
  unfold format_center. rewrite !append_length, !spaces_length.
  assert (((width - String.length s) / 2 <= width - String.length s)%nat)
    by (apply Nat.Div0.div_le_upper_bound; lia).
  lia.
Qed.

(** X22. The feedback line of [play_game] has the same layout for all
    counts: whenever the two counts have at most 34 and 35 characters it is
    81 characters wide; it begins with the word for the bulls and ends with
    the word for the cows, each in the singular, with a space after it,
    exactly when its count is 1. *)
Theorem feedback_layout (bulls cows : Z) :
  (String.length (str_of_int bulls) <= 34)%nat ->
  (String.length (str_of_int cows) <= 35)%nat ->
  String.length (feedback bulls cows) = 81%nat
  /\ String.prefix (if bulls =? 1 then "Bull " else "Bulls")
                   (feedback bulls cows) = true
  /\ exists line,
       feedback bulls cows
       = (line ++ (if (cows =? 1)%Z then "Cow " else "Cows"))%string.
Proof.
  intros Hb Hc. unfold feedback, get_plurals. split; [|split].
  - rewrite !append_length, !format_center_length.
    destruct (bulls =? 1), (cows =? 1); cbn; lia.
  - destruct (bulls =? 1); reflexivity.
  - exists (capitalize (if (bulls =? 1)%Z then "bull " else "bulls") ++ " "
            ++ format_center (str_of_int bulls) 34 ++ " "
            ++ format_center (str_of_int cows) 35 ++ " ")%string.
    rewrite !append_assoc. destruct (cows =? 1); reflexivity.
Qed.

Lemma feedback_layout_witness :
  String.length (feedback 1 3) = 81%nat
  /\ String.prefix (if 1 =? 1 then "Bull " else "Bulls") (feedback 1 3) = true
  /\ exists line,
       feedback 1 3 = (line ++ (if (3 =? 1)%Z then "Cow " else "Cows"))%string.
Proof. apply (feedback_layout 1 3); vm_compute; lia. Defined.
